(** * node-test-utils: a shallow embedding of the helpers and their contracts

    The development follows the four source units of the package:
    - [Factory]  : src/factories/test-factory.ts  (class TestFactory)
    - [Snapshot] : src/utils/e2e-snapshot.ts      (snapshotApi)
    - [AutoMock] : src/mocks/auto-mock.ts         (createAutoMock,
                   createPartialMock, createMockProvider)

    A JavaScript object is the finite map of its own properties (spread
    [{...a, ...b}] is a right-biased union; assignment [o[k] = v] is map
    insertion except at the key [__proto__], where the setter inherited from
    [Object.prototype] runs instead); function objects live in a heap of
    locations so that identity ("the same stub", "a fresh stub") can be
    stated.  Numbers are integers. *)

From stdpp Require Import gmap strings list fin_maps.
From Stdlib Require Import ZArith Ascii.

Local Open Scope string_scope.
Local Open Scope list_scope.

(** ** Values *)

Abbreviation loc := positive.

Inductive settled := Fulfilled | Rejected.

(** The four configuration operations of a stub function. *)
Inductive config_op :=
  | MockReturnValue
  | MockResolvedValue
  | MockRejectedValue
  | MockImplementation.

Inductive value :=
  | VUndefined
  | VNull
  | VBool (b : bool)
  | VNumber (n : Z)
  | VNaN
  | VString (s : string)
  | VObject (id : nat)
      (* a plain, non-callable host object without a [then] method *)
  | VFun (id : nat)
      (* a function supplied by the caller, without a [then] property *)
  | VPromise (st : settled) (v : value) (* an already settled native promise *)
  | VThenable (st : settled) (v : value)
      (* an object of the host, not a native promise, whose [then] method
         settles that way *)
  | VConfig (op : config_op) (self : loc)
      (* the arrow function [(value) => { fn.<slot> = value; return fn; }]
         closed over the function object [fn] at [self] *)
  | VRef (l : loc).                     (* a function object of the heap *)

#[global] Instance settled_eq_dec : EqDecision settled.
Proof. solve_decision. Defined.

#[global] Instance config_op_eq_dec : EqDecision config_op.
Proof. solve_decision. Defined.

#[global] Instance value_eq_dec : EqDecision value.
Proof. solve_decision. Defined.

(** [v !== undefined] *)
Definition is_defined (v : value) : bool :=
  match v with VUndefined => false | _ => true end.

(** ToBoolean, as used by [if (v)] and [a && b]. *)
Definition truthy (v : value) : bool :=
  match v with
  | VUndefined | VNull | VNaN => false
  | VBool b => b
  | VNumber n => negb (Z.eqb n 0)
  | VString s => negb (String.eqb s "")
  | VObject _ | VFun _ | VPromise _ _ | VThenable _ _ | VConfig _ _ | VRef _ =>
      true
  end.

(** [typeof v === 'function'] *)
Definition is_function (v : value) : bool :=
  match v with
  | VFun _ | VConfig _ _ | VRef _ => true
  | _ => false
  end.

(** Object spread [{...a, ...b}]: the entries of [b] win. *)
Definition spread (a b : gmap string value) : gmap string value := b ∪ a.

(** ** The fluent test-data builder (class TestFactory) *)

Module Factory.
Section Factory.

(** [G] is the state of whatever the subclass's [default()] draws from
    (the fake-data generator); [default] is the abstract method. *)
Context {G : Type}.
Variable default : G → gmap string value * G.

(** The only field of the class: [protected data: Partial<T> = {}]. *)
Record factory := Build { data : gmap string value }.

Definition fresh_factory : factory := Factory.Build ∅.

(** [with(overrides) { this.data = {...this.data, ...overrides}; return this }] *)
Definition with_ (overrides : gmap string value) (f : factory) : factory :=
  Build (spread (data f) overrides).

(** [create() { return {...this.default(), ...this.data} }] *)
Definition create (f : factory) (g : G) : gmap string value * G :=
  let '(d, g') := default g in (spread d (data f), g').

(** [reset() { this.data = {}; return this }] *)
Definition reset (f : factory) : factory := Factory.Build ∅.

(** The callback handed to [Array.from], run once per index:
    [const instance = this.create(); this.data = {}; return instance]. *)
Definition createMany_step (f : factory) (g : G)
  : gmap string value * factory * G :=
  let '(instance, g') := create f g in (instance, Factory.Build ∅, g').

Fixpoint array_from (n : nat) (f : factory) (g : G)
  : list (gmap string value) * factory * G :=
  match n with
  | O => ([], f, g)
  | S n' =>
      let '(instance, f1, g1) := createMany_step f g in
      let '(rest, f2, g2) := array_from n' f1 g1 in
      (instance :: rest, f2, g2)
  end.

(** ToLength of an integral [count]: clamped to the range from 0 to
    2^53 - 1. *)
Definition to_length (count : Z) : Z := Z.min (Z.max count 0) (2 ^ 53 - 1).

(** The greatest length an array can have. *)
Definition max_array_length : Z := 2 ^ 32 - 1.

(** [createMany(count) { return Array.from({ length: count }, () => ...) }].
    [Array.from] creates the array before it runs the callback; for a length
    above [max_array_length] that raises a RangeError: the result is [None]
    and the factory and the generator are as they were. *)
Definition createMany (count : Z) (f : factory) (g : G)
  : option (list (gmap string value)) * factory * G :=
  if (max_array_length <? to_length count)%Z then (None, f, g)
  else
    let '(items, f', g') := array_from (Z.to_nat (to_length count)) f g in
    (Some items, f', g').

(** The generator state before the [k]-th call of [default()]. *)
Definition gen_after (k : nat) (g : G) : G := Nat.iter k (λ s, snd (default s)) g.

(** The [k]-th value produced by [default()]. *)
Definition nth_default (k : nat) (g : G) : gmap string value :=
  fst (default (gen_after k g)).

End Factory.

(** [createTestData(defaults, overrides = {}) { return {...defaults, ...overrides} }] *)
Definition createTestData (defaults : gmap string value)
    (overrides : option (gmap string value)) : gmap string value :=
  spread defaults (default ∅ overrides).

(** [createFactory(defaults)] is the function
    [(overrides = {}) => ({...defaults(), ...overrides})]; as for [default()],
    [G] is the state the [defaults] function draws from. *)
Definition createFactory {G : Type} (defaults : G → gmap string value * G)
    (overrides : option (gmap string value)) (g : G)
  : gmap string value * G :=
  let '(d, g') := defaults g in (spread d (default ∅ overrides), g').

End Factory.

(** ** The HTTP snapshot recorder (snapshotApi) *)

Module Snapshot.

(** A JavaScript string is a sequence of UTF-16 code units; the regular
    expression of [snapshotApi] has no [u] flag and so works unit by unit. *)
Abbreviation jsstring := (list N).

Definition units (s : string) : jsstring := N_of_ascii <$> String.list_ascii_of_string s.

Definition underscore : N := 95%N.

Definition in_range (lo hi c : N) : bool := (lo <=? c)%N && (c <=? hi)%N.

(** The complement of the character class [[^a-zA-Z0-9]]. *)
Definition is_alnum (c : N) : bool :=
  in_range 97 122 c || in_range 65 90 c || in_range 48 57 c.

(** [url.replace(/[^a-zA-Z0-9]/g, '_')] *)
Definition replace_non_alnum (url : jsstring) : jsstring :=
  (λ c, if is_alnum c then c else underscore) <$> url.

(** The template literal [`${method}_${...}`]. *)
Definition derived_name (method url : jsstring) : jsstring :=
  (method ++ underscore :: replace_non_alnum url)%list.

(** [SnapshotApiOptions]; [None] and [VUndefined] stand for an absent field. *)
Record options := Options {
  expectedStatus : option Z;
  method : option jsstring;
  body : value;
  query : value;
  headers : list (jsstring * jsstring);
  snapshotName : option jsstring;
  snapshotFullResponse : option bool
}.

(** The request methods of the HTTP client. *)
Inductive verb := Get | Post | Put | Patch | Delete.

Record request := Request {
  req_verb : verb;
  req_url : jsstring;
  req_query : option value;
  req_headers : list (jsstring * jsstring);
  req_body : option value
}.

Record response := Response {
  status : Z;
  res_headers : value;
  res_body : value
}.

Inductive snapshot_data :=
  | BodyOnly (b : value)
  | FullResponse (st : Z) (hs b : value).

(** The calls made on the test framework's [expect]. *)
Inductive assertion :=
  | ToBe (actual expected : Z)
  | ToMatchSnapshot (data : snapshot_data) (name : jsstring).

(** The destructuring defaults [expectedStatus = 200], [method = 'GET'],
    [snapshotFullResponse = false]. *)
Definition expected_of (o : options) : Z := default 200%Z (expectedStatus o).
Definition method_of (o : options) : jsstring := default (units "GET") (method o).
Definition full_of (o : options) : bool := default false (snapshotFullResponse o).

(** [switch (method) { case 'GET': ... default: req = request(server).get(url) }] *)
Definition verb_of (m : jsstring) : verb :=
  if decide (m = units "GET") then Get
  else if decide (m = units "POST") then Post
  else if decide (m = units "PUT") then Put
  else if decide (m = units "PATCH") then Patch
  else if decide (m = units "DELETE") then Delete
  else Get.

(** [['POST', 'PUT', 'PATCH'].includes(method)] *)
Definition takes_body (m : jsstring) : bool :=
  bool_decide (m ∈ [units "POST"; units "PUT"; units "PATCH"]).

Definition build_request (url : jsstring) (o : options) : request :=
  let m := method_of o in
  Request (verb_of m) url
    (if truthy (query o) then Some (query o) else None)
    (headers o)
    (if truthy (body o) && takes_body m then Some (body o) else None).

(** [if (snapshotName)]: an absent or empty name is falsy. *)
Definition name_given (o : options) : bool :=
  match snapshotName o with
  | Some (_ :: _) => true
  | _ => false
  end.

Definition snapshot_name (url : jsstring) (o : options) : jsstring :=
  if name_given o then default [] (snapshotName o)
  else derived_name (method_of o) url.

Definition snapshot_of (o : options) (res : response) : snapshot_data :=
  if full_of o then FullResponse (status res) (res_headers res) (res_body res)
  else BodyOnly (res_body res).

(** [snapshotApi(app, url, options)].  [send] is the application under test
    answering the request; [matches] is the snapshot store deciding whether
    [toMatchSnapshot] passes.  The result is the sequence of assertions made
    and the response, or [None] when an assertion failed and aborted. *)
Definition snapshotApi (send : request → response)
    (matches : snapshot_data → jsstring → bool)
    (url : jsstring) (o : options) : list assertion * option response :=
  let res := send (build_request url o) in
  if negb (status res =? expected_of o)%Z
  then ([ToBe (status res) (expected_of o)], None)
  else
    let data := snapshot_of o res in
    let name := snapshot_name url o in
    ([ToBe (status res) (expected_of o); ToMatchSnapshot data name],
     if matches data name then Some res else None).

(** The code units of the ASCII letters and digits. *)
Definition alphabet : jsstring :=
  units "abcdefghijklmnopqrstuvwxyzABCDEFGHIJKLMNOPQRSTUVWXYZ0123456789".

(** [snapshotMultipleApis(app, endpoints)]:
    [for (const endpoint of endpoints) {
       const { url, ...options } = endpoint;
       results.push(await snapshotApi(app, url, options)); }
     return results;]
    The application answers from a state [S] that each request may change;
    a failed assertion inside [snapshotApi] ends the loop.  The result is the
    assertions made, the responses ([None] after a failure) and the state
    the application is left in. *)
Fixpoint snapshotMultipleApis {S : Type} (serve : S → request → response * S)
    (matches : snapshot_data → jsstring → bool)
    (endpoints : list (jsstring * options)) (s : S)
  : list assertion * option (list response) * S :=
  match endpoints with
  | [] => ([], Some [], s)
  | (url, o) :: rest =>
      let '(trace, result) := snapshotApi (λ rq, (serve s rq).1) matches url o in
      let s' := (serve s (build_request url o)).2 in
      match result with
      | None => (trace, None, s')
      | Some res =>
          let '(trace', results, s'') :=
            snapshotMultipleApis serve matches rest s' in
          (trace ++ trace', (λ rs, res :: rs) <$> results, s'')
      end
  end.

(** The requests a list of endpoints stands for. *)
Definition requests_of (endpoints : list (jsstring * options)) : list request :=
  (λ ep, build_request ep.1 ep.2) <$> endpoints.

(** The application's state after answering a list of requests in order. *)
Definition serve_all {S : Type} (serve : S → request → response * S)
    (rqs : list request) (s : S) : S :=
  foldl (λ st rq, (serve st rq).2) s rqs.

(** The responses a list of endpoints gets, each request served in the
    state the previous ones left. *)
Fixpoint responses_of {S : Type} (serve : S → request → response * S)
    (endpoints : list (jsstring * options)) (s : S) : list response :=
  match endpoints with
  | [] => []
  | ep :: rest =>
      (serve s (build_request ep.1 ep.2)).1
      :: responses_of serve rest (serve s (build_request ep.1 ep.2)).2
  end.

(** An endpoint whose status assertion and snapshot both pass in state [s]. *)
Definition endpoint_passes {S : Type} (serve : S → request → response * S)
    (matches : snapshot_data → jsstring → bool) (s : S)
    (ep : jsstring * options) : bool :=
  let res := (serve s (build_request ep.1 ep.2)).1 in
  (status res =? expected_of ep.2)%Z
  && matches (snapshot_of ep.2 res) (snapshot_name ep.1 ep.2).

(** Every endpoint of the list passes, each in the state it is served in. *)
Fixpoint all_pass {S : Type} (serve : S → request → response * S)
    (matches : snapshot_data → jsstring → bool)
    (endpoints : list (jsstring * options)) (s : S) : bool :=
  match endpoints with
  | [] => true
  | ep :: rest =>
      endpoint_passes serve matches s ep
      && all_pass serve matches rest (serve s (build_request ep.1 ep.2)).2
  end.

End Snapshot.

(** ** Automatic stubs (createAutoMock, createPartialMock, createMockProvider) *)

Module AutoMock.

(** *** Function objects and the heap *)

Inductive object :=
  | OJestMock
      (* a mock made by the host runtime's [jest.fn()]; its state and
         behaviour belong to that runtime *)
  | OFunction (props : gmap string value).
      (* the self-built [fn] together with its own properties *)

Abbreviation heap := (gmap loc object).

Inductive exn := TypeError | Raised (v : value).

Inductive outcome := Returned (v : value) | Thrown (e : exn).

(** What the library does not define: applying a value it did not create
    (a caller's function, a runtime mock) and invoking a method of a runtime
    mock.  Both may read and write the heap. *)
Record host := Host {
  host_call : value → list value → heap → outcome * heap;
  host_method : loc → string → list value → heap → outcome * heap
}.

Definition alloc (h : heap) (o : loc → object) : loc * heap :=
  let l := fresh (dom h) in (l, <[l := o l]> h).

(** [fn.k] and [fn.k = v] on a self-built function object. *)
Definition get_prop (h : heap) (l : loc) (k : string) : value :=
  match h !! l with
  | Some (OFunction props) => default VUndefined (props !! k)
  | _ => VUndefined
  end.

Definition set_prop (h : heap) (l : loc) (k : string) (v : value) : heap :=
  match h !! l with
  | Some (OFunction props) => <[l := OFunction (<[k := v]> props)]> h
  | _ => h
  end.

(** The property under which an operation is exposed, and the property it
    writes. *)
Definition op_name (op : config_op) : string :=
  match op with
  | MockReturnValue => "mockReturnValue"
  | MockResolvedValue => "mockResolvedValue"
  | MockRejectedValue => "mockRejectedValue"
  | MockImplementation => "mockImplementation"
  end.

Definition slot_name (op : config_op) : string :=
  match op with
  | MockReturnValue => "mockReturnValueValue"
  | MockResolvedValue => "mockResolvedValueValue"
  | MockRejectedValue => "mockRejectedValueValue"
  | MockImplementation => "mockImplementationFn"
  end.

(** [Promise.resolve(v)]: a native promise is returned as it is, a thenable
    is adopted (the new promise settles as its [then] method does), any
    other value is wrapped in a fulfilled promise. *)
Definition promise_resolve (v : value) : value :=
  match v with
  | VPromise _ _ => v
  | VThenable st x => VPromise st x
  | _ => VPromise Fulfilled v
  end.

(** [await v] on a settled value. *)
Definition await (v : value) : outcome :=
  match v with
  | VPromise Fulfilled x | VThenable Fulfilled x => Returned x
  | VPromise Rejected e | VThenable Rejected e => Thrown (Raised e)
  | _ => Returned v
  end.

(** *** The self-built stub function *)

(** The body of [fn], the same text in both builders:
    [if (fn.mockImplementationFn) return fn.mockImplementationFn(...args);
     if (fn.mockReturnValueValue !== undefined) return fn.mockReturnValueValue;
     if (fn.mockResolvedValueValue !== undefined)
       return Promise.resolve(fn.mockResolvedValueValue);
     return undefined;] *)
Definition stub_call (H : host) (l : loc) (args : list value) (h : heap)
  : outcome * heap :=
  if truthy (get_prop h l "mockImplementationFn")
  then host_call H (get_prop h l "mockImplementationFn") args h
  else if is_defined (get_prop h l "mockReturnValueValue")
  then (Returned (get_prop h l "mockReturnValueValue"), h)
  else if is_defined (get_prop h l "mockResolvedValueValue")
  then (Returned (promise_resolve (get_prop h l "mockResolvedValueValue")), h)
  else (Returned VUndefined, h).

(** The arrow functions [(value) => { fn.<slot> = value; return fn; }]. *)
Definition config_call (op : config_op) (self : loc) (args : list value)
    (h : heap) : outcome * heap :=
  (Returned (VRef self),
   set_prop h self (slot_name op) (default VUndefined (head args))).

(** [f(...args)] *)
Definition call (H : host) (f : value) (args : list value) (h : heap)
  : outcome * heap :=
  match f with
  | VConfig op self => config_call op self args h
  | VRef l =>
      match h !! l with
      | Some (OFunction _) => stub_call H l args h
      | _ => host_call H f args h
      end
  | VFun _ => host_call H f args h
  | _ => (Thrown TypeError, h)
  end.

(** [fn.name(...args)] *)
Definition call_method (H : host) (l : loc) (name : string)
    (args : list value) (h : heap) : outcome * heap :=
  match h !! l with
  | Some (OFunction props) => call H (default VUndefined (props !! name)) args h
  | _ => host_method H l name args h
  end.

(** The properties [fn] is given in [createAutoMock] ... *)
Definition auto_fallback_props (self : loc) : gmap string value :=
  <["_isMockFunction" := VBool true]>
  (<["mockImplementation" := VConfig MockImplementation self]>
  (<["mockRejectedValue" := VConfig MockRejectedValue self]>
  (<["mockResolvedValue" := VConfig MockResolvedValue self]>
  (<["mockReturnValue" := VConfig MockReturnValue self]> ∅)))).

(** ... and in [createPartialMock]. *)
Definition partial_fallback_props (self : loc) : gmap string value :=
  <["_isMockFunction" := VBool true]>
  (<["mockResolvedValue" := VConfig MockResolvedValue self]>
  (<["mockReturnValue" := VConfig MockReturnValue self]> ∅)).

(** *** Looking for the richer runtime *)

Record env := Env {
  global_jest_fn : option bool;
    (* [(global as any).jest?.fn]: [None] when evaluating it throws,
       otherwise whether it is truthy *)
  require_defined : bool;
    (* [typeof require !== 'undefined'] *)
  jest_mock_fn : option bool
    (* [require('jest-mock').fn]: [None] when it throws, otherwise whether
       it is truthy *)
}.

(** [try { jestFn = global.jest?.fn;
          if (!jestFn && typeof require !== 'undefined')
            jestFn = require('jest-mock').fn; } catch (e) {}]
    followed by the test [if (jestFn)]. *)
Definition resolve_jestFn (e : env) : bool :=
  match global_jest_fn e with
  | None => false
  | Some true => true
  | Some false =>
      if require_defined e then default false (jest_mock_fn e) else false
  end.

(** [jestFn()] *)
Definition jestFn_call (h : heap) : loc * heap := alloc h (λ _, OJestMock).

Definition new_auto_stub (e : env) (h : heap) : loc * heap :=
  if resolve_jestFn e then jestFn_call h
  else alloc h (λ l, OFunction (auto_fallback_props l)).

Definition new_partial_stub (e : env) (h : heap) : loc * heap :=
  if resolve_jestFn e then jestFn_call h
  else alloc h (λ l, OFunction (partial_fallback_props l)).

(** *** Types and their prototype chains *)

(** A property descriptor.  The [get] and [set] of an accessor are each a
    function or [undefined]. *)
Inductive descriptor :=
  | DataProperty (v : value)
  | AccessorProperty (get set : option nat).

(** [descriptor.get] *)
Definition descriptor_get (o : option nat) : value :=
  match o with
  | Some id => VFun id
  | None => VUndefined
  end.

(** The own properties of one prototype object, in the order of
    [Object.getOwnPropertyNames]. *)
Abbreviation proto := (list (string * descriptor)).

(** A class: its identity and the objects from [target.prototype] upwards,
    ending before [Object.prototype] (or before [null]). *)
Record type := Type_ { type_id : nat; prototype_chain : list proto }.

(** [descriptor && (typeof descriptor.value === 'function' || descriptor.get)] *)
Definition mockable (d : descriptor) : bool :=
  match d with
  | DataProperty v => is_function v
  | AccessorProperty get _ => truthy (descriptor_get get)
  end.

(** *** createAutoMock *)

Record walk_state := Walk {
  mock : gmap string value;
  seen : gset string;
  store : heap
}.

(** [mock[key] = fn] on the object [mock] that started as [{}].  At the key
    [__proto__] the assignment runs the setter inherited from
    [Object.prototype]: [fn] becomes the prototype of [mock] and no own
    property is created.  The prototype is not recorded: a surrogate is
    modelled by its own properties, and an assignment made after the
    prototype was replaced is taken to create an own property like any
    other.  It does, except at the names the function that is now the
    prototype holds read-only or behind an accessor ([name] and [length]
    among them), which this model does not follow. *)
Definition assign (key : string) (fn : value) (mock : gmap string value)
  : gmap string value :=
  if decide (key = "__proto__") then mock else <[key := fn]> mock.

(** The callback of [Object.getOwnPropertyNames(proto).forEach]. *)
Definition visit (e : env) (st : walk_state) (entry : string * descriptor)
  : walk_state :=
  if bool_decide (entry.1 ≠ "constructor") && bool_decide (entry.1 ∉ seen st)
  then
    if mockable entry.2 then
      let '(l, h') := new_auto_stub e (store st) in
      Walk (assign entry.1 (VRef l) (mock st)) ({[entry.1]} ∪ seen st) h'
    else Walk (mock st) ({[entry.1]} ∪ seen st) (store st)
  else st.

Definition visit_proto (e : env) (st : walk_state) (p : proto) : walk_state :=
  foldl (visit e) st p.

(** The [while (proto && proto !== Object.prototype)] loop. *)
Definition walk (e : env) (st : walk_state) (chain : list proto) : walk_state :=
  foldl (visit_proto e) st chain.

Definition createAutoMock (e : env) (target : type) (h : heap)
  : gmap string value * heap :=
  let st := walk e (Walk ∅ ∅ h) (prototype_chain target) in
  (mock st, store st).

(** *** createPartialMock *)

Definition install_partial (e : env) (acc : gmap string value * heap)
    (method : string) : gmap string value * heap :=
  let '(l, h') := new_partial_stub e acc.2 in
  (assign method (VRef l) acc.1, h').

Definition createPartialMock (e : env) (target : type)
    (mockMethods : list string) (h : heap) : gmap string value * heap :=
  foldl (install_partial e) (∅, h) mockMethods.

(** *** createMockProvider *)

Record provider := Provider {
  provide : type;
  useValue : gmap string value
}.

Definition createMockProvider (e : env) (target : type)
    (customMocks : option (gmap string value)) (h : heap) : provider * heap :=
  let '(baseMock, h') := createAutoMock e target h in
  (Provider target (spread baseMock (default ∅ customMocks)), h').

(** *** Vocabulary of the contracts *)

(** The definition of member [key] that property lookup finds first on the
    chain: the most derived one. *)
Fixpoint first_desc (key : string) (entries : proto) : option descriptor :=
  match entries with
  | [] => None
  | (k, d) :: rest => if decide (k = key) then Some d else first_desc key rest
  end.

Definition lookup_member (chain : list proto) (key : string)
  : option descriptor :=
  first_desc key (concat chain).

(** The object a builder creates for one member, by environment. *)
Definition auto_object (e : env) (l : loc) : object :=
  if resolve_jestFn e then OJestMock else OFunction (auto_fallback_props l).

Definition partial_object (e : env) (l : loc) : object :=
  if resolve_jestFn e then OJestMock else OFunction (partial_fallback_props l).

(** [fn] exposes operation [op]: the property is there and is the arrow
    function closed over [fn] itself. *)
Definition exposes (h : heap) (l : loc) (op : config_op) : Prop :=
  ∃ props, h !! l = Some (OFunction props)
           ∧ props !! op_name op = Some (VConfig op l).

(** A history of configuration calls [fn.<op>(v)], oldest first. *)
Definition configure (H : host) (l : loc) (h : heap)
    (c : config_op * value) : heap :=
  (call_method H l (op_name c.1) [c.2] h).2.

Definition configure_all (H : host) (l : loc) (cs : list (config_op * value))
    (h : heap) : heap :=
  foldl (configure H l) h cs.

(** The value most recently given to [op] in a history. *)
Definition last_configured (op : config_op) (cs : list (config_op * value))
  : value :=
  foldl (λ acc c, if decide (c.1 = op) then c.2 else acc) VUndefined cs.

(** What a builder has put in place.  [built h0 obj m h]: starting from heap [h0], the surrogate [m] and heap
    [h] are such that nothing that existed was touched, every entry of [m]
    is a function object created since, still in the state [obj] it was
    created in, and no two names share one. *)
Definition built (h0 : heap) (obj : loc → object)
    (m : gmap string value) (h : heap) : Prop :=
  h0 ⊆ h
  ∧ (∀ k v, m !! k = Some v →
       ∃ l, v = VRef l ∧ (l ∉ dom h0) ∧ h !! l = Some (obj l))
  ∧ (∀ k1 k2 l, m !! k1 = Some (VRef l) → m !! k2 = Some (VRef l) → k1 = k2).

(** The invariant of the loop: the surrogate is [built] and every name of
    the surrogate is in [seen]. *)
Definition walk_inv (e : env) (h0 : heap) (st : walk_state) : Prop :=
  built h0 (auto_object e) (mock st) (store st)
  ∧ dom (mock st) ⊆ seen st.

(** As the specification words it: a callable member (a method) is one
    whose value is a function, an accessor member (a getter) one that has a
    [get] function. *)
Inductive function_value : value → Prop :=
  | function_of_caller id : function_value (VFun id)
  | function_arrow op l : function_value (VConfig op l)
  | function_object l : function_value (VRef l).

Inductive callable_or_accessor : descriptor → Prop :=
  | callable_member v : function_value v → callable_or_accessor (DataProperty v)
  | accessor_member getter set :
      callable_or_accessor (AccessorProperty (Some getter) set).

(** A value that is no object: [null], a boolean, a number or a string. *)
Inductive primitive : value → Prop :=
  | primitive_null : primitive VNull
  | primitive_bool b : primitive (VBool b)
  | primitive_number n : primitive (VNumber n)
  | primitive_nan : primitive VNaN
  | primitive_string s : primitive (VString s).

End AutoMock.

(** ** The test-module helper (createTestModule) *)

Module ModuleHelper.

(** What [provide] may be: a class or a string token. *)
Inductive token :=
  | TClass (t : AutoMock.type)
  | TName (s : string).

(** What [useValue] may hold: any plain value, or a surrogate object as the
    stub builders return it. *)
Inductive payload :=
  | PlainValue (v : value)
  | Surrogate (m : gmap string value).

(** [ModuleOverride]; [None] and [PlainValue VUndefined] are an absent field. *)
Record ModuleOverride := Override {
  provide : token;
  useValue : payload;
  useClass : option nat;
  useFactory : option nat;
  inject : option (list value)
}.

Record CreateTestModuleOptions := TestModuleOptions {
  module : nat;
  imports : option (list nat);
  providers : option (list value);
  controllers : option (list nat);
  overrides : option (list ModuleOverride)
}.

(** The calls made on the module builder for one provider. *)
Inductive override_action :=
  | UseValue (p : payload)
  | UseClass (c : nat)
  | UseFactory (factory : nat) (inject : list value).

(** What has been given to the builder when [compile()] is called. *)
Record module_builder := Builder {
  b_imports : list nat;
  b_providers : list value;
  b_controllers : list nat;
  b_overrides : list (token * override_action)
}.

(** [override.useValue !== undefined] *)
Definition payload_defined (p : payload) : bool :=
  match p with
  | PlainValue v => is_defined v
  | Surrogate _ => true
  end.

(** The callback of [overrides.forEach]:
    [if (override.useValue !== undefined) ...useValue(override.useValue)
     else if (override.useClass) ...useClass(override.useClass)
     else if (override.useFactory)
       ...useFactory({ factory: override.useFactory,
                       inject: override.inject || [] })] *)
Definition apply_override (o : ModuleOverride) : option (token * override_action) :=
  if payload_defined (useValue o) then Some (provide o, UseValue (useValue o))
  else match useClass o with
       | Some c => Some (provide o, UseClass c)
       | None =>
           match useFactory o with
           | Some f => Some (provide o, UseFactory f (default [] (inject o)))
           | None => None
           end
       end.

(** [createTestModule(options)] up to the call of [compile()]. *)
Definition createTestModule (o : CreateTestModuleOptions) : module_builder :=
  Builder (module o :: default [] (imports o))
          (default [] (providers o))
          (default [] (controllers o))
          (omap apply_override (default [] (overrides o))).

(** The object [createMockProvider] returns, given as an override: it has
    [provide] and [useValue] and none of the other fields. *)
Definition provider_override (p : AutoMock.provider) : ModuleOverride :=
  Override (TClass (AutoMock.provide p)) (Surrogate (AutoMock.useValue p))
           None None None.

End ModuleHelper.

(** ** Sample inputs *)

Module Samples.
Import AutoMock.

(** An environment in which no mocking runtime is found, and one with it. *)
Definition no_jest : env := Env (Some false) false None.

(** A host whose functions [VFun n] answer with their own number. *)
Definition echo : host :=
  Host (λ f _ h, match f with
                 | VFun n => (Returned (VNumber (Z.of_nat n)), h)
                 | _ => (Thrown TypeError, h)
                 end)
       (λ _ _ _ h, (Thrown TypeError, h)).

(** [class Base { find() {} base() {} }] and
    [class UserService extends Base { find() {} get name() {} }] with a data
    field [count] put on the prototype. *)
Definition UserService : type :=
  Type_ 0
    [ [("constructor", DataProperty (VFun 0));
       ("find", DataProperty (VFun 1));
       ("count", DataProperty (VNumber 3));
       ("name", AccessorProperty (Some 2) None)];
      [("constructor", DataProperty (VFun 3));
       ("find", DataProperty (VFun 4));
       ("base", DataProperty (VFun 5))] ].

(** A class with nothing but a constructor and a data field. *)
Definition Plain : type :=
  Type_ 1 [ [("constructor", DataProperty (VFun 6));
             ("version", DataProperty (VString "1.0"))] ].

(** A factory whose defaults carry a running identifier. *)
Definition counter_default (n : nat) : gmap string value * nat :=
  ({[ "id" := VNumber (Z.of_nat n); "name" := VString "anon" ]}, S n).

Definition named : Factory.factory :=
  Factory.with_ {[ "name" := VString "John" ]} Factory.fresh_factory.

(** A call with no options against a server answering 200. *)
Definition no_options : Snapshot.options :=
  Snapshot.Options None None VUndefined VUndefined [] None None.

Definition ok_server (_ : Snapshot.request) : Snapshot.response :=
  Snapshot.Response 200 VUndefined (VString "user 7").

(** A server that counts the requests it has answered and answers 500 from
    the third on. *)
Definition flaky (n : nat) (_ : Snapshot.request) : Snapshot.response * nat :=
  (Snapshot.Response (if decide (n < 2)%nat then 200 else 500) VUndefined
     (VNumber (Z.of_nat n)), Datatypes.S n).

Definition post_user : Snapshot.options :=
  Snapshot.Options (Some 200%Z) (Some (Snapshot.units "POST")) (VString "John") VUndefined []
    (Some (Snapshot.units "create-user")) None.

(** A POST expecting 201, with no snapshot name, and a server answering
    201. *)
Definition post_unnamed : Snapshot.options :=
  Snapshot.Options (Some 201%Z) (Some (Snapshot.units "POST")) (VString "John")
    VUndefined [(Snapshot.units "accept", Snapshot.units "text/plain")] None None.

Definition created_server (_ : Snapshot.request) : Snapshot.response :=
  Snapshot.Response 201 VUndefined (VString "created").

(** A class with a method named [__proto__] beside a method [run]. *)
Definition Proto : AutoMock.type :=
  AutoMock.Type_ 3
    [ [("constructor", AutoMock.DataProperty (VFun 20));
       ("__proto__", AutoMock.DataProperty (VFun 21));
       ("run", AutoMock.DataProperty (VFun 22))] ].

(** A subclass that redefines [find] as a data field and [title] with a
    setter only, over a base class with a method [find] and a getter
    [title]. *)
Definition Shadowing : AutoMock.type :=
  AutoMock.Type_ 2
    [ [("constructor", AutoMock.DataProperty (VFun 10));
       ("find", AutoMock.DataProperty (VNumber 0));
       ("title", AutoMock.AccessorProperty None (Some 11))];
      [("constructor", AutoMock.DataProperty (VFun 12));
       ("find", AutoMock.DataProperty (VFun 13));
       ("title", AutoMock.AccessorProperty (Some 14) None);
       ("save", AutoMock.DataProperty (VFun 15))] ].

(** An override naming a value (here [null]) together with a class and a
    factory, and one naming nothing. *)
Definition crowded_override : ModuleHelper.ModuleOverride :=
  ModuleHelper.Override (ModuleHelper.TName "CONFIG")
    (ModuleHelper.PlainValue VNull) (Some 1) (Some 2) None.

Definition empty_override : ModuleHelper.ModuleOverride :=
  ModuleHelper.Override (ModuleHelper.TName "LOGGER")
    (ModuleHelper.PlainValue VUndefined) None None None.

End Samples.

(** * Properties *)

Lemma spread_lookup_r a b k v : b !! k = Some v → spread a b !! k = Some v.
Proof. intros H. unfold spread. by apply lookup_union_Some_l. Qed.

Lemma spread_lookup_l a b k : b !! k = None → spread a b !! k = a !! k.
Proof. intros H. unfold spread. by rewrite lookup_union_r. Qed.

Lemma spread_empty_r a : spread a ∅ = a.
Proof. unfold spread. by rewrite (left_id_L ∅ (∪)). Qed.


(** ** TestFactory *)

Module FactorySpec.
Import Factory.
Section FactorySpec.

Context {G : Type}.
Variable default : G → gmap string value * G.

Local Abbreviation create := (Factory.create default).
Local Abbreviation createMany := (Factory.createMany default).
Local Abbreviation array_from := (Factory.array_from default).
Local Abbreviation createMany_step := (Factory.createMany_step default).
Local Abbreviation gen_after := (Factory.gen_after default).
Local Abbreviation nth_default := (Factory.nth_default default).

Lemma gen_after_S k g : gen_after (S k) g = gen_after k (snd (default g)).
Proof. unfold gen_after. by rewrite Nat.iter_succ_r. Qed.

Lemma create_fst f g : fst (create f g) = spread (nth_default 0 g) (data f).
Proof. unfold create, nth_default. simpl. by destruct (default g). Qed.

Lemma create_snd f g : snd (create f g) = gen_after 1 g.
Proof. unfold create. simpl. by destruct (default g). Qed.

Lemma create_reset f g : fst (create (reset f) g) = nth_default 0 g.
Proof. rewrite create_fst. simpl. apply spread_empty_r. Qed.

Lemma array_from_length n f g : length (array_from n f g).1.1 = n.
Proof.
  revert f g. induction n as [|n IH]; intros f g; simpl; [done|].
  unfold createMany_step. destruct (create f g) as [i g1].
  specialize (IH (Factory.Build ∅) g1).
  destruct (array_from n (Factory.Build ∅) g1) as [[rest f2] g2]. simpl in *.
  by rewrite IH.
Qed.

(** Once the overrides are empty every further item is a bare default. *)
Lemma array_from_reset n g k :
  k < n →
  (array_from n (Factory.Build ∅) g).1.1 !! k = Some (nth_default k g).
Proof.
  revert g k. induction n as [|n IH]; intros g k Hk; [lia|].
  simpl. unfold createMany_step.
  pose proof (create_fst (Factory.Build ∅) g) as Hc.
  pose proof (create_snd (Factory.Build ∅) g) as Hs.
  destruct (create (Factory.Build ∅) g) as [i g1]. simpl in Hc, Hs.
  specialize (IH g1).
  destruct (array_from n (Factory.Build ∅) g1) as [[rest f2] g2]. simpl in *.
  destruct k as [|k]; simpl.
  - rewrite Hc. by rewrite spread_empty_r.
  - rewrite IH; [|lia]. f_equal. unfold nth_default.
    rewrite gen_after_S. by rewrite Hs.
Qed.

Lemma array_from_head n f g :
  (array_from (S n) f g).1.1 !! 0 = Some (fst (create f g)).
Proof.
  simpl. unfold createMany_step. destruct (create f g) as [i g1].
  by destruct (array_from n (Factory.Build ∅) g1) as [[rest f2] g2].
Qed.

Lemma array_from_tail n f g k :
  k < n →
  (array_from (S n) f g).1.1 !! (S k) = Some (nth_default (S k) g).
Proof.
  intros Hk. simpl. unfold createMany_step.
  pose proof (create_snd f g) as Hs.
  destruct (create f g) as [i g1]. simpl in Hs.
  pose proof (array_from_reset n g1 k Hk) as Hr.
  destruct (array_from n (Factory.Build ∅) g1) as [[rest f2] g2]. simpl in *.
  rewrite Hr. f_equal. unfold nth_default. rewrite gen_after_S. by rewrite Hs.
Qed.

Lemma array_from_final_data n f g :
  data (array_from (S n) f g).1.2 = ∅.
Proof.
  revert f g. induction n as [|n IH]; intros f g.
  - simpl. unfold createMany_step. by destruct (create f g).
  - specialize (IH (Factory.Build ∅)).
    change (array_from (S (S n)) f g) with
      (let '(instance, f1, g1) := createMany_step f g in
       let '(rest, f2, g2) := array_from (S n) f1 g1 in
       (instance :: rest, f2, g2)).
    unfold createMany_step. destruct (create f g) as [i g1].
    specialize (IH g1).
    by destruct (array_from (S n) (Factory.Build ∅) g1) as [[rest f2] g2].
Qed.

Lemma createMany_in_range count f g :
  (count ≤ 2 ^ 32 - 1)%Z →
  createMany count f g
  = (Some (array_from (Z.to_nat count) f g).1.1,
     (array_from (Z.to_nat count) f g).1.2,
     (array_from (Z.to_nat count) f g).2).
Proof.
  intros Hc. unfold Factory.createMany, to_length, max_array_length.
  change (2 ^ 53 - 1)%Z with 9007199254740991%Z.
  change (2 ^ 32 - 1)%Z with 4294967295%Z in *.
  destruct (Z.ltb_spec 4294967295 (Z.max count 0 `min` 9007199254740991))
    as [Hlt|Hge]; [lia|].
  replace (Z.to_nat (Z.max count 0 `min` 9007199254740991))
    with (Z.to_nat count) by lia.
  by destruct (array_from (Z.to_nat count) f g) as [[items f'] g'].
Qed.

Lemma createMany_too_long count f g :
  (2 ^ 32 ≤ count)%Z → createMany count f g = (None, f, g).
Proof.
  intros Hc. unfold Factory.createMany, to_length, max_array_length.
  change (2 ^ 53 - 1)%Z with 9007199254740991%Z.
  change (2 ^ 32 - 1)%Z with 4294967295%Z.
  change (2 ^ 32)%Z with 4294967296%Z in Hc.
  destruct (Z.ltb_spec 4294967295 (Z.max count 0 `min` 9007199254740991))
    as [Hlt|Hge]; [done|lia].
Qed.

(** C8. For [count] from 1 to 2^32 - 1, [createMany(count)] returns exactly
    [count] items.  The first is what [create()] returns on the factory as
    it stands (the defaults overlaid with the accumulated overrides); every
    later one is what [create()] returns on a reset factory, that is the
    bare [k]-th defaults: overrides given through [with] reach the first
    item only. *)
Theorem createMany_items (count : Z) (f : factory) (g : G) :
  (1 ≤ count)%Z →
  (count ≤ 2 ^ 32 - 1)%Z →
  ∃ items,
    (createMany count f g).1.1 = Some items
    ∧ length items = Z.to_nat count
    ∧ items !! 0 = Some (fst (create f g))
    ∧ fst (create f g) = spread (nth_default 0 g) (data f)
    ∧ ∀ k, 1 ≤ k < Z.to_nat count →
        items !! k = Some (fst (create (reset f) (gen_after k g)))
        ∧ items !! k = Some (nth_default k g).
Proof.
  intros Hc Hmax. rewrite createMany_in_range by done. cbn [fst snd].
  eexists. split; [reflexivity|].
  assert (∃ n, Z.to_nat count = S n) as [n Hn]
    by (exists (Z.to_nat (count - 1)); lia).
  rewrite Hn.
  split; [apply array_from_length|].
  split; [apply array_from_head|].
  split; [apply create_fst|].
  intros k [Hk1 Hk2]. destruct k as [|k]; [lia|].
  rewrite array_from_tail by lia. split; [|done].
  f_equal. by rewrite create_reset.
Qed.

(** C10. [createMany(0)] returns the empty list and does not touch the
    accumulated overrides, so a following [create()] still applies them;
    after [createMany(count)] with [count] from 1 to 2^32 - 1 the overrides
    are empty and a following [create()] returns the bare defaults. *)
Theorem createMany_zero_keeps_overrides (count : Z) (f : factory) (g : G) :
  (createMany 0 f g = (Some [], f, g)
   ∧ ∀ g', fst (create (createMany 0 f g).1.2 g')
           = spread (nth_default 0 g') (data f))
  ∧ ((1 ≤ count)%Z → (count ≤ 2 ^ 32 - 1)%Z →
     data (createMany count f g).1.2 = ∅
     ∧ ∀ g', fst (create (createMany count f g).1.2 g') = nth_default 0 g').
Proof.
  split.
  - split; [reflexivity|]. intros g'. apply create_fst.
  - intros Hc Hmax. rewrite createMany_in_range by done. cbn [fst snd].
    assert (∃ n, Z.to_nat count = S n) as [n Hn]
      by (exists (Z.to_nat (count - 1)); lia).
    rewrite Hn.
    pose proof (array_from_final_data n f g) as Hd.
    split; [done|]. intros g'. rewrite create_fst, Hd. apply spread_empty_r.
Qed.

End FactorySpec.

Import Samples.

(** Where the count of items fails: for 2^32 items [Array.from] raises a
    RangeError and no list is returned. *)
Lemma createMany_items_counterexample :
  (1 ≤ 2 ^ 32)%Z
  ∧ Factory.createMany counter_default (2 ^ 32) named 0 = (None, named, 0).
Proof. split; [by apply Z.leb_le|reflexivity]. Qed.

Lemma createMany_items_witness :
  (1 ≤ 3)%Z ∧ (3 ≤ 2 ^ 32 - 1)%Z ∧
  ∃ items,
    (Factory.createMany counter_default 3 named 0).1.1 = Some items
    ∧ length items = 3
    ∧ items !! 0 = Some (fst (Factory.create counter_default named 0))
    ∧ fst (Factory.create counter_default named 0)
      = spread (Factory.nth_default counter_default 0 0) (data named)
    ∧ ∀ k, 1 ≤ k < 3 →
        items !! k = Some (fst (Factory.create counter_default (reset named)
                                  (Factory.gen_after counter_default k 0)))
        ∧ items !! k = Some (Factory.nth_default counter_default k 0).
Proof.
  assert (3 ≤ 2 ^ 32 - 1)%Z as Hmax by (by apply Z.leb_le).
  split; [lia|]. split; [exact Hmax|].
  apply (createMany_items counter_default 3 named 0); [lia|exact Hmax].
Defined.

(** Where the emptied overrides fail: at 2^32 the RangeError comes before
    the callback has run once, and the overrides set before the call are
    still applied by the next [create()]. *)
Lemma createMany_zero_keeps_overrides_counterexample :
  (1 ≤ 2 ^ 32)%Z
  ∧ data (Factory.createMany counter_default (2 ^ 32) named 0).1.2 = data named
  ∧ data named !! "name" = Some (VString "John")
  ∧ (Factory.create counter_default
       (Factory.createMany counter_default (2 ^ 32) named 0).1.2 0).1 !! "name"
    = Some (VString "John").
Proof.
  split; [by apply Z.leb_le|]. split; [reflexivity|].
  split; [reflexivity|]. vm_compute. reflexivity.
Qed.

Lemma createMany_zero_keeps_overrides_witness :
  (1 ≤ 2)%Z ∧ (2 ≤ 2 ^ 32 - 1)%Z ∧
  data (Factory.createMany counter_default 2 named 0).1.2 = ∅.
Proof.
  assert (2 ≤ 2 ^ 32 - 1)%Z as Hmax by (by apply Z.leb_le).
  split; [lia|]. split; [exact Hmax|].
  apply (createMany_zero_keeps_overrides counter_default 2 named 0);
    [lia|exact Hmax].
Defined.

(** The overrides reach the first of three items and no other. *)
Example createMany_three_names :
  match (Factory.createMany counter_default 3 named 0).1.1 with
  | Some items => (λ item : gmap string value, item !! "name") <$> items
  | None => []
  end
  = [Some (VString "John"); Some (VString "anon"); Some (VString "anon")].
Proof. vm_compute. reflexivity. Qed.

(** *** The rest of the builder *)

Section FactoryMore.

Context {G : Type}.
Variable dflt : G → gmap string value * G.

Lemma spread_lookup a b k :
  spread a b !! k = match b !! k with Some v => Some v | None => a !! k end.
Proof.
  destruct (b !! k) as [v|] eqn:Hb.
  - by apply spread_lookup_r.
  - by apply spread_lookup_l.
Qed.

(** X1. Chained [with()] calls accumulate: in what [create()] returns, a key
    has the value of the latest [with()] that names it, and the value of
    [default()] when none does. *)
Theorem with_chain_create (a b : gmap string value) (f : factory) (g : G)
    (k : string) :
  (Factory.create dflt (with_ b (with_ a f)) g).1 !! k
  = match b !! k with
    | Some v => Some v
    | None =>
        match a !! k with
        | Some v => Some v
        | None =>
            match data f !! k with
            | Some v => Some v
            | None => Factory.nth_default dflt 0 g !! k
            end
        end
    end.
Proof.
  rewrite create_fst. unfold with_. cbn [data].
  rewrite !spread_lookup. by destruct (b !! k), (a !! k), (data f !! k).
Qed.

(** X2. The three ways of building one entity agree: a new factory given
    overrides and asked to [create()], [createTestData] on the defaults, and
    the function made by [createFactory].  Without overrides each returns
    the defaults. *)
Theorem create_agrees_with_helpers (o : gmap string value) (g : G) :
  Factory.create dflt (with_ o fresh_factory) g = createFactory dflt (Some o) g
  ∧ (createFactory dflt (Some o) g).1
    = createTestData (Factory.nth_default dflt 0 g) (Some o)
  ∧ createFactory dflt None g = Factory.create dflt fresh_factory g
  ∧ (createFactory dflt None g).1 = Factory.nth_default dflt 0 g
  ∧ createTestData (Factory.nth_default dflt 0 g) None
    = Factory.nth_default dflt 0 g.
Proof.
  assert (Factory.nth_default dflt 0 g = (dflt g).1) as -> by reflexivity.
  unfold Factory.create, createFactory, createTestData, with_, fresh_factory.
  simpl. destruct (dflt g) as [d g']. simpl.
  assert (spread ∅ o = o) as ->
    by (unfold spread; by rewrite (right_id_L ∅ (∪))).
  by rewrite !spread_empty_r.
Qed.

Lemma array_from_app n m f g :
  Factory.array_from dflt (n + m) f g =
  let r1 := Factory.array_from dflt n f g in
  let r2 := Factory.array_from dflt m r1.1.2 r1.2 in
  (r1.1.1 ++ r2.1.1, r2.1.2, r2.2).
Proof.
  revert f g. induction n as [|n IH]; intros f g.
  - simpl. by destruct (Factory.array_from dflt m f g) as [[??]?].
  - simpl. unfold Factory.createMany_step.
    destruct (Factory.create dflt f g) as [i g1].
    rewrite IH. cbn zeta.
    destruct (Factory.array_from dflt n (Factory.Build ∅) g1) as [[items1 f1] g2].
    cbn [fst snd].
    by destruct (Factory.array_from dflt m f1 g2) as [[items2 f2] g3].
Qed.

(** X3. Two batches in a row are one batch: while [a + b] stays within
    2^32 - 1, [createMany(a + b)] returns the items of [createMany(a)]
    followed by those of a [createMany(b)] run on the factory and generator
    the first batch left. *)
Theorem createMany_split (a b : Z) (f : factory) (g : G) :
  (0 ≤ a)%Z → (0 ≤ b)%Z → (a + b ≤ 2 ^ 32 - 1)%Z →
  ∃ items1 f1 g1 items2 f2 g2,
    Factory.createMany dflt a f g = (Some items1, f1, g1)
    ∧ Factory.createMany dflt b f1 g1 = (Some items2, f2, g2)
    ∧ Factory.createMany dflt (a + b) f g = (Some (items1 ++ items2), f2, g2).
Proof.
  intros Ha Hb Hmax.
  rewrite (createMany_in_range dflt a) by lia.
  rewrite (createMany_in_range dflt (a + b)) by lia.
  replace (Z.to_nat (a + b)) with (Z.to_nat a + Z.to_nat b) by lia.
  rewrite array_from_app. cbn zeta.
  destruct (Factory.array_from dflt (Z.to_nat a) f g) as [[items1 f1] g1].
  cbn [fst snd].
  exists items1, f1, g1. rewrite (createMany_in_range dflt b) by lia.
  destruct (Factory.array_from dflt (Z.to_nat b) f1 g1) as [[items2 f2] g2].
  cbn [fst snd]. by exists items2, f2, g2.
Qed.

Lemma array_from_gen n f g :
  (Factory.array_from dflt n f g).2 = Factory.gen_after dflt n g.
Proof.
  revert f g. induction n as [|n IH]; intros f g; [done|].
  simpl. unfold Factory.createMany_step.
  pose proof (create_snd dflt f g) as Hs.
  destruct (Factory.create dflt f g) as [i g1]. cbn [snd] in Hs.
  specialize (IH (Factory.Build ∅) g1).
  destruct (Factory.array_from dflt n (Factory.Build ∅) g1) as [[rest f2] g2].
  cbn [snd] in *. rewrite IH, Hs.
  unfold Factory.gen_after. by rewrite <- Nat.iter_succ_r.
Qed.

(** X4. Up to 2^32 - 1 items, [createMany(count)] calls [default()] once per
    item and no more; a count of zero or less gives the empty list and
    changes neither the factory nor the generator; a count of 2^32 or more
    raises the RangeError with [default()] never called and the overrides as
    they were. *)
Theorem createMany_default_calls (count : Z) (f : factory) (g : G) :
  ((count ≤ 2 ^ 32 - 1)%Z →
   (Factory.createMany dflt count f g).2
   = Factory.gen_after dflt (Z.to_nat count) g
   ∧ ∃ items, (Factory.createMany dflt count f g).1.1 = Some items
              ∧ length items = Z.to_nat count)
  ∧ ((count ≤ 0)%Z → Factory.createMany dflt count f g = (Some [], f, g))
  ∧ ((2 ^ 32 ≤ count)%Z → Factory.createMany dflt count f g = (None, f, g)).
Proof.
  split; [|split].
  - intros Hmax. rewrite createMany_in_range by done. cbn [fst snd].
    split; [apply array_from_gen|]. eexists. split; [reflexivity|].
    apply array_from_length.
  - intros Hc. rewrite createMany_in_range.
    + by replace (Z.to_nat count) with 0 by lia.
    + change (2 ^ 32 - 1)%Z with 4294967295%Z. lia.
  - apply createMany_too_long.
Qed.

End FactoryMore.

Lemma createMany_split_witness :
  (0 ≤ 1)%Z ∧ (0 ≤ 2)%Z ∧ (1 + 2 ≤ 2 ^ 32 - 1)%Z
  ∧ ∃ items1 f1 g1 items2 f2 g2,
      Factory.createMany counter_default 1 named 0 = (Some items1, f1, g1)
      ∧ Factory.createMany counter_default 2 f1 g1 = (Some items2, f2, g2)
      ∧ Factory.createMany counter_default (1 + 2) named 0
        = (Some (items1 ++ items2), f2, g2).
Proof.
  assert (1 + 2 ≤ 2 ^ 32 - 1)%Z as Hmax by (by apply Z.leb_le).
  split; [lia|]. split; [lia|]. split; [exact Hmax|].
  apply (createMany_split counter_default 1 2 named 0); [lia|lia|exact Hmax].
Defined.

Lemma createMany_default_calls_witness :
  (2 ^ 32 ≤ 2 ^ 32 + 5)%Z
  ∧ Factory.createMany counter_default (2 ^ 32 + 5) named 5 = (None, named, 5).
Proof.
  assert (2 ^ 32 ≤ 2 ^ 32 + 5)%Z as Hc by (by apply Z.leb_le).
  split; [exact Hc|].
  apply (createMany_default_calls counter_default (2 ^ 32 + 5) named 5), Hc.
Defined.

End FactorySpec.

(** ** snapshotApi *)

Module SnapshotSpec.
Import Snapshot.

(** [is_alnum] holds of exactly the code units of ASCII letters and digits. *)
Lemma is_alnum_spec (c : N) : is_alnum c = true ↔ c ∈ alphabet.
Proof.
  destruct (decide (c < 123)%N) as [Hlt|Hge].
  - assert (forallb (λ n, bool_decide (is_alnum n = true ↔ n ∈ alphabet))
              (N.of_nat <$> seq 0 123) = true) as Hall by (vm_compute; reflexivity).
    rewrite forallb_forall in Hall.
    assert (In c (N.of_nat <$> seq 0 123)) as Hin.
    { apply list_elem_of_In, list_elem_of_fmap. exists (N.to_nat c).
      split; [lia|]. apply elem_of_seq. lia. }
    apply Hall in Hin. by apply bool_decide_eq_true in Hin.
  - split.
    + unfold is_alnum, in_range. intros H.
      repeat (apply orb_prop in H as [H|H]);
        apply andb_prop in H as [_ H]; apply N.leb_le in H; lia.
    + intros H. exfalso.
      assert (Forall (λ n, (n < 123)%N) alphabet) as Hall.
      { apply Forall_forall. intros x Hx.
        assert (forallb (λ n, (n <? 123)%N) alphabet = true) as Hb
          by (vm_compute; reflexivity).
        rewrite forallb_forall in Hb. apply N.ltb_lt, Hb.
        by apply list_elem_of_In. }
      rewrite Forall_forall in Hall. apply Hge, Hall, H.
Qed.

Lemma replace_non_alnum_lookup url i c :
  url !! i = Some c →
  replace_non_alnum url !! i = Some (if is_alnum c then c else underscore).
Proof. intros H. unfold replace_non_alnum. by rewrite list_lookup_fmap, H. Qed.

Lemma replace_non_alnum_length url : length (replace_non_alnum url) = length url.
Proof. unfold replace_non_alnum. by rewrite length_fmap. Qed.

(** C9. Called without a snapshot name, [snapshotApi] records its snapshot
    under the method given in the options (GET when none is given), an
    underscore, and the url in which every code unit that is not an ASCII
    letter or digit has become an underscore: no other name is ever used,
    and that name is used whenever the response has the expected status
    (the one given, or 200).  [GET /users/7] is recorded as
    [GET__users_7]. *)
Theorem snapshotApi_derived_name send matches (url : jsstring) (o : options) :
  snapshotName o = None →
  let m := match method o with Some m => m | None => units "GET" end in
  let expected := match expectedStatus o with Some s => s | None => 200%Z end in
  let name := (m ++ underscore :: replace_non_alnum url)%list in
  let trace := (snapshotApi send matches url o).1 in
  (∀ d n, ToMatchSnapshot d n ∈ trace → n = name)
  ∧ (status (send (build_request url o)) = expected →
     ∃ d, ToMatchSnapshot d name ∈ trace)
  ∧ length (replace_non_alnum url) = length url
  ∧ (∀ i c, url !! i = Some c →
       replace_non_alnum url !! i
       = Some (if bool_decide (c ∈ alphabet) then c else underscore))
  ∧ derived_name (units "GET") (units "/users/7") = units "GET__users_7".
Proof.
  intros Hname m expected name trace.
  assert (method_of o = m) as Hm by (unfold method_of; by destruct (method o)).
  assert (expected_of o = expected) as He
    by (unfold expected_of; by destruct (expectedStatus o)).
  assert (snapshot_name url o = name) as Hsn.
  { unfold snapshot_name, name_given. by rewrite Hname, Hm. }
  subst trace. unfold snapshotApi. rewrite Hsn, He.
  repeat split.
  - intros d n. destruct (negb _); simpl; intros Hin.
    + apply list_elem_of_singleton in Hin. discriminate.
    + apply elem_of_cons in Hin as [Hin|Hin]; [discriminate|].
      apply list_elem_of_singleton in Hin. by injection Hin as _ ->.
  - intros Hst. rewrite Hst, Z.eqb_refl. simpl.
    eexists. apply elem_of_cons. right. apply elem_of_cons. by left.
  - apply replace_non_alnum_length.
  - intros i c Hi. rewrite (replace_non_alnum_lookup _ _ _ Hi). f_equal.
    destruct (is_alnum c) eqn:Ha.
    + rewrite bool_decide_eq_true_2; [done|]. by apply is_alnum_spec.
    + rewrite bool_decide_eq_false_2; [done|]. intros Hc%is_alnum_spec. congruence.
Qed.

Import Samples.

Lemma snapshotApi_derived_name_witness :
  snapshotName post_unnamed = None
  ∧ status (created_server (build_request (units "/users/7") post_unnamed)) = 201%Z
  ∧ ∃ d, ToMatchSnapshot d (units "POST__users_7")
           ∈ (snapshotApi created_server (λ _ _, true)
                (units "/users/7") post_unnamed).1.
Proof.
  split; [reflexivity|]. split; [reflexivity|].
  apply (snapshotApi_derived_name created_server (λ _ _, true)
           (units "/users/7") post_unnamed eq_refl).
  reflexivity.
Defined.

Example snapshotApi_get_user_7 :
  snapshotApi ok_server (λ _ _, true) (units "/users/7") no_options
  = ([ToBe 200 200; ToMatchSnapshot (BodyOnly (VString "user 7")) (units "GET__users_7")],
     Some (Response 200 VUndefined (VString "user 7"))).
Proof. vm_compute. reflexivity. Qed.

Example snapshotApi_post_user_7 :
  snapshotApi created_server (λ _ _, true) (units "/users/7") post_unnamed
  = ([ToBe 201 201;
      ToMatchSnapshot (BodyOnly (VString "created")) (units "POST__users_7")],
     Some (Response 201 VUndefined (VString "created"))).
Proof. vm_compute. reflexivity. Qed.

(** *** The request, the assertions, and sequences of endpoints *)

(** X5. The url and the headers of every request are the ones given,
    whatever the method and the body.  A body is sent only if the options
    carry a truthy one and name the method POST, PUT or PATCH, and then the
    request is made with that very verb and body; and with such a method
    every truthy body is sent. *)
Theorem build_request_body (url : jsstring) (o : options) :
  req_url (build_request url o) = url
  ∧ req_headers (build_request url o) = headers o
  ∧ (∀ b, req_body (build_request url o) = Some b →
       b = body o ∧ truthy b = true
       ∧ (method o = Some (units "POST") ∧ req_verb (build_request url o) = Post
          ∨ method o = Some (units "PUT") ∧ req_verb (build_request url o) = Put
          ∨ method o = Some (units "PATCH")
            ∧ req_verb (build_request url o) = Patch))
  ∧ (truthy (body o) = true →
     method o ∈ [Some (units "POST"); Some (units "PUT"); Some (units "PATCH")] →
     req_body (build_request url o) = Some (body o)).
Proof.
  unfold build_request, method_of.
  cbn [req_body req_verb req_url req_headers].
  split; [done|]. split; [done|]. split.
  - intros b. destruct (truthy (body o)) eqn:Hb; [|discriminate].
    unfold takes_body. case_bool_decide as Hm; [|discriminate].
    simpl. intros [= <-]. split; [done|]. split; [done|].
    destruct (method o) as [m|]; unfold default in *; cbn [from_option id] in *.
    + apply elem_of_cons in Hm as [Hm|Hm];
        [left; subst m; split; reflexivity|].
      apply elem_of_cons in Hm as [Hm|Hm];
        [right; left; subst m; split; reflexivity|].
      apply list_elem_of_singleton in Hm.
      right; right; subst m; split; reflexivity.
    + exfalso.
      assert (bool_decide
                (units "GET" ∈ [units "POST"; units "PUT"; units "PATCH"])
              = false) as Hget by reflexivity.
      apply bool_decide_eq_false in Hget. exact (Hget Hm).
  - intros Hb Hm. rewrite Hb.
    apply elem_of_cons in Hm as [Hm|Hm]; [by rewrite Hm|].
    apply elem_of_cons in Hm as [Hm|Hm]; [by rewrite Hm|].
    apply list_elem_of_singleton in Hm. by rewrite Hm.
Qed.

(** X6. A request without one of the three body-carrying methods, GET by default
    and GET for any unknown method string, never has a body. *)
Theorem build_request_no_body (url : jsstring) (o : options) :
  method_of o ∉ [units "POST"; units "PUT"; units "PATCH"] →
  req_body (build_request url o) = None
  ∧ (method_of o ∉ [units "DELETE"] → req_verb (build_request url o) = Get).
Proof.
  intros Hm. unfold build_request. cbn [req_body req_verb]. split.
  - unfold takes_body. rewrite bool_decide_eq_false_2 by done.
    by rewrite andb_false_r.
  - intros Hd. unfold verb_of.
    repeat case_decide; try done; exfalso.
    + apply Hm. rewrite H0. apply elem_of_cons. by left.
    + apply Hm. rewrite H1. apply elem_of_cons. right. apply elem_of_cons. by left.
    + apply Hm. rewrite H2. do 2 (apply elem_of_cons; right).
      by apply list_elem_of_singleton.
    + apply Hd. rewrite H3. by apply list_elem_of_singleton.
Qed.

(** X7. [snapshotApi] hands back a response only when both assertions passed,
    and then it is the application's response; when the status differs from
    the expected one the status assertion is the only one made: no snapshot
    is taken. *)
Theorem snapshotApi_outcome send matches (url : jsstring) (o : options) :
  let res := send (build_request url o) in
  let r := snapshotApi send matches url o in
  (∀ res', r.2 = Some res' ↔
     res' = res ∧ status res = expected_of o
     ∧ matches (snapshot_of o res) (snapshot_name url o) = true)
  ∧ (status res ≠ expected_of o →
     r = ([ToBe (status res) (expected_of o)], None))
  ∧ (status res = expected_of o →
     r.1 = [ToBe (status res) (expected_of o);
            ToMatchSnapshot (snapshot_of o res) (snapshot_name url o)]).
Proof.
  intros res r. subst res r. unfold snapshotApi.
  destruct (Z.eqb_spec (status (send (build_request url o))) (expected_of o))
    as [Heq|Hne]; cbn [negb fst snd].
  - split; [|split; [done|done]].
    intros res'. destruct (matches _ _); naive_solver.
  - split; [|split; [done|done]].
    intros res'. naive_solver.
Qed.

(** X8. A snapshot name given in the options and not empty is used as it is,
    unsanitised; an empty one counts as absent and the derived name is used. *)
Theorem snapshotApi_explicit_name send matches (url : jsstring) (o : options)
    (n : jsstring) :
  snapshotName o = Some n →
  let trace := (snapshotApi send matches url o).1 in
  (n ≠ [] → ∀ d n', ToMatchSnapshot d n' ∈ trace → n' = n)
  ∧ (n = [] → ∀ d n', ToMatchSnapshot d n' ∈ trace →
                      n' = derived_name (method_of o) url).
Proof.
  intros Hn trace. subst trace.
  assert (∀ d n', ToMatchSnapshot d n' ∈ (snapshotApi send matches url o).1 →
                  n' = snapshot_name url o) as Hname.
  { intros d n'. unfold snapshotApi. destruct (negb _); cbn [fst]; intros Hin.
    - apply list_elem_of_singleton in Hin. discriminate.
    - apply elem_of_cons in Hin as [Hin|Hin]; [discriminate|].
      apply list_elem_of_singleton in Hin. by injection Hin as _ ->. }
  split.
  - intros Hne d n' Hin. rewrite (Hname d n' Hin).
    unfold snapshot_name, name_given. rewrite Hn. by destruct n.
  - intros -> d n' Hin. rewrite (Hname d n' Hin).
    unfold snapshot_name, name_given. by rewrite Hn.
Qed.

(** X9. The derived part of a snapshot name holds only ASCII letters, digits and
    underscores; deriving again changes nothing; a url of letters and digits
    is kept as it is; and the name of a concatenation is the concatenation
    of the names. *)
Theorem replace_non_alnum_shape (url url' : jsstring) :
  Forall (λ c, c ∈ alphabet ∨ c = underscore) (replace_non_alnum url)
  ∧ replace_non_alnum (replace_non_alnum url) = replace_non_alnum url
  ∧ (Forall (λ c, c ∈ alphabet) url → replace_non_alnum url = url)
  ∧ replace_non_alnum (url ++ url') = replace_non_alnum url ++ replace_non_alnum url'.
Proof.
  unfold replace_non_alnum. split; [|split; [|split]].
  - apply Forall_fmap, Forall_forall. intros c _. simpl.
    destruct (is_alnum c) eqn:Hc; [left; by apply is_alnum_spec|by right].
  - rewrite <- list_fmap_compose. apply list_fmap_ext. intros i c _. simpl.
    destruct (is_alnum c) eqn:Hc; [by rewrite Hc|reflexivity].
  - intros Hall. rewrite <- (list_fmap_id url) at 2.
    apply Forall_fmap_ext_1. eapply Forall_impl; [exact Hall|].
    intros c Hc. simpl. apply is_alnum_spec in Hc. by rewrite Hc.
  - apply fmap_app.
Qed.

Section Sequence.

Context {S : Type}.
Variable serve : S → request → response * S.
Variable matches : snapshot_data → jsstring → bool.

Lemma snapshotApi_passes (s : S) (ep : jsstring * options) :
  endpoint_passes serve matches s ep = true →
  snapshotApi (λ rq, (serve s rq).1) matches ep.1 ep.2
  = ([ToBe (status (serve s (build_request ep.1 ep.2)).1) (expected_of ep.2);
      ToMatchSnapshot (snapshot_of ep.2 (serve s (build_request ep.1 ep.2)).1)
                      (snapshot_name ep.1 ep.2)],
     Some (serve s (build_request ep.1 ep.2)).1).
Proof.
  unfold endpoint_passes, snapshotApi. intros [Hst Hm]%andb_prop.
  by rewrite Hst, Hm.
Qed.

Lemma snapshotApi_fails (s : S) (ep : jsstring * options) :
  endpoint_passes serve matches s ep = false →
  (snapshotApi (λ rq, (serve s rq).1) matches ep.1 ep.2).2 = None.
Proof.
  unfold endpoint_passes, snapshotApi. intros Hf.
  destruct (status _ =? _)%Z; [|done]. simpl in *. by rewrite Hf.
Qed.

(** X10. [snapshotMultipleApis] returns responses exactly when every endpoint
    passes in the state it is served in; then there is one response per
    endpoint, in order, two assertions were made per endpoint, and the
    application has served each request once, in order. *)
Theorem snapshotMultipleApis_all_pass (endpoints : list (jsstring * options))
    (s : S) :
  let r := snapshotMultipleApis serve matches endpoints s in
  (is_Some r.1.2 ↔ all_pass serve matches endpoints s = true)
  ∧ (all_pass serve matches endpoints s = true →
     r.1.2 = Some (responses_of serve endpoints s)
     ∧ length (responses_of serve endpoints s) = length endpoints
     ∧ length r.1.1 = 2 * length endpoints
     ∧ r.2 = serve_all serve (requests_of endpoints) s).
Proof.
  revert s. induction endpoints as [|[url o] eps IH]; intros s r; subst r.
  { cbn. split; [by split; eauto|]. intros _. by repeat split. }
  simpl snapshotMultipleApis. simpl all_pass.
  destruct (endpoint_passes serve matches s (url, o)) eqn:Hp.
  - pose proof (snapshotApi_passes s (url, o) Hp) as Hpass.
    cbn [fst snd] in Hpass. rewrite Hpass. cbn [fst snd].
    specialize (IH (serve s (build_request url o)).2). cbn zeta in IH.
    destruct (snapshotMultipleApis serve matches eps
                (serve s (build_request url o)).2) as [[t rs] s''].
    cbn [fst snd andb] in *. destruct IH as [IH1 IH2]. split.
    + rewrite <- IH1. rewrite fmap_is_Some. done.
    + intros Hall. destruct (IH2 Hall) as (-> & Hlen & Htr & ->).
      simpl. rewrite Hlen, Htr. repeat split; lia.
  - pose proof (snapshotApi_fails s (url, o) Hp) as Hf. cbn [fst snd] in Hf.
    destruct (snapshotApi (λ rq, (serve s rq).1) matches url o) as [t res].
    cbn [snd] in Hf. subst res. cbn [fst snd andb].
    split; [|done]. split; [by intros [? ?]|done].
Qed.

(** X11. The first endpoint that fails ends the run: the endpoints after it are
    never requested, no response is returned, and the application is left in
    the state reached by the requests up to and including the failing one. *)
Theorem snapshotMultipleApis_stops (pre post : list (jsstring * options))
    (ep : jsstring * options) (s : S) :
  all_pass serve matches pre s = true →
  endpoint_passes serve matches (serve_all serve (requests_of pre) s) ep = false →
  let r := snapshotMultipleApis serve matches (pre ++ ep :: post) s in
  r.1.2 = None
  ∧ r.2 = serve_all serve (requests_of (pre ++ [ep])) s
  ∧ r = snapshotMultipleApis serve matches (pre ++ [ep]) s.
Proof.
  revert s. induction pre as [|[url o] pre IH]; intros s Hall Hfail r; subst r.
  - cbn [app]. simpl snapshotMultipleApis. destruct ep as [url o].
    pose proof (snapshotApi_fails s (url, o) Hfail) as Hf. cbn [fst snd] in Hf.
    destruct (snapshotApi (λ rq, (serve s rq).1) matches url o) as [t res].
    cbn [snd] in Hf. subst res. done.
  - simpl in Hall. apply andb_prop in Hall as [Hp Hall].
    cbn [app]. simpl snapshotMultipleApis.
    pose proof (snapshotApi_passes s (url, o) Hp) as Hpass.
    cbn [fst snd] in Hpass. rewrite Hpass. cbn [fst snd].
    specialize (IH (serve s (build_request url o)).2 Hall Hfail).
    cbn zeta in IH. destruct IH as (IH1 & IH2 & IH3).
    rewrite IH3.
    destruct (snapshotMultipleApis serve matches (pre ++ [ep])
                (serve s (build_request url o)).2) as [[t rs] s''] eqn:Hrun.
    rewrite IH3 in IH1, IH2. cbn [fst snd] in *. subst rs. by rewrite IH2.
Qed.

End Sequence.

Lemma build_request_body_witness :
  truthy (body post_unnamed) = true
  ∧ method post_unnamed
    ∈ [Some (units "POST"); Some (units "PUT"); Some (units "PATCH")]
  ∧ req_body (build_request (units "/users") post_unnamed)
    = Some (VString "John")
  ∧ req_headers (build_request (units "/users") post_unnamed)
    = [(units "accept", units "text/plain")].
Proof.
  assert (method post_unnamed
          ∈ [Some (units "POST"); Some (units "PUT"); Some (units "PATCH")])
    as Hm by (apply elem_of_cons; by left).
  split; [reflexivity|]. split; [exact Hm|].
  destruct (build_request_body (units "/users") post_unnamed)
    as (_ & Hh & _ & Hb).
  split; [exact (Hb eq_refl Hm)|exact Hh].
Defined.

Lemma build_request_no_body_witness :
  (method_of no_options ∉ [units "POST"; units "PUT"; units "PATCH"])
  ∧ req_body (build_request (units "/users") no_options) = None.
Proof.
  assert (method_of no_options ∉ [units "POST"; units "PUT"; units "PATCH"])
    as Hm.
  { apply (proj1 (bool_decide_eq_false
                    (method_of no_options
                     ∈ [units "POST"; units "PUT"; units "PATCH"]))).
    reflexivity. }
  split; [exact Hm|].
  apply (build_request_no_body (units "/users") no_options Hm).
Defined.

Lemma snapshotApi_outcome_witness :
  status (flaky 2 (build_request (units "/users") no_options)).1
  ≠ expected_of no_options
  ∧ snapshotApi (λ rq, (flaky 2 rq).1) (λ _ _, true) (units "/users") no_options
    = ([ToBe 500 200], None).
Proof.
  split; [discriminate|].
  apply (snapshotApi_outcome (λ rq, (flaky 2 rq).1) (λ _ _, true)
           (units "/users") no_options).
  discriminate.
Defined.

Lemma snapshotApi_explicit_name_witness :
  snapshotName post_user = Some (units "create-user")
  ∧ ∀ d n', ToMatchSnapshot d n'
              ∈ (snapshotApi ok_server (λ _ _, true) (units "/users") post_user).1 →
            n' = units "create-user".
Proof.
  split; [reflexivity|].
  apply (snapshotApi_explicit_name ok_server (λ _ _, true) (units "/users")
           post_user (units "create-user") eq_refl).
  discriminate.
Defined.

Lemma replace_non_alnum_shape_witness :
  Forall (λ c, c ∈ alphabet) (units "users7")
  ∧ replace_non_alnum (units "users7") = units "users7".
Proof.
  assert (Forall (λ c, c ∈ alphabet) (units "users7")) as Hall.
  { apply Forall_forall. intros c Hc. apply is_alnum_spec.
    assert (forallb is_alnum (units "users7") = true) as Hb by reflexivity.
    rewrite forallb_forall in Hb. apply Hb. by apply list_elem_of_In. }
  refine (conj Hall _).
  destruct (replace_non_alnum_shape (units "users7") []) as (_ & _ & Hfix & _).
  exact (Hfix Hall).
Defined.

Lemma snapshotMultipleApis_all_pass_witness :
  let eps := [(units "/a", no_options); (units "/b", no_options)] in
  all_pass flaky (λ _ _, true) eps 0 = true
  ∧ (snapshotMultipleApis flaky (λ _ _, true) eps 0).2 = 2.
Proof.
  intros eps. split; [reflexivity|].
  destruct (snapshotMultipleApis_all_pass flaky (λ _ _, true) eps 0) as [_ Hr].
  destruct (Hr eq_refl) as (_ & _ & _ & ->). reflexivity.
Defined.

Lemma snapshotMultipleApis_stops_witness :
  let pre := [(units "/a", no_options); (units "/b", no_options)] in
  let post := [(units "/d", no_options); (units "/e", no_options)] in
  all_pass flaky (λ _ _, true) pre 0 = true
  ∧ endpoint_passes flaky (λ _ _, true)
      (serve_all flaky (requests_of pre) 0) (units "/c", no_options) = false
  ∧ (snapshotMultipleApis flaky (λ _ _, true)
       (pre ++ (units "/c", no_options) :: post) 0).2 = 3.
Proof.
  intros pre post. split; [reflexivity|]. split; [reflexivity|].
  destruct (snapshotMultipleApis_stops flaky (λ _ _, true) pre post
              (units "/c", no_options) 0 eq_refl eq_refl) as (_ & -> & _).
  reflexivity.
Defined.

End SnapshotSpec.

(** ** Stub functions and the builders *)

Module AutoMockSpec.
Import AutoMock.

(** *** Allocation *)

Lemma alloc_fresh h o : (alloc h o).1 ∉ dom h.
Proof. unfold alloc. simpl. apply is_fresh. Qed.

Lemma alloc_lookup_None h o : h !! (alloc h o).1 = None.
Proof. apply not_elem_of_dom, alloc_fresh. Qed.

Lemma alloc_lookup_new h o : (alloc h o).2 !! (alloc h o).1 = Some (o (alloc h o).1).
Proof. unfold alloc. simpl. apply lookup_insert_eq. Qed.

Lemma alloc_lookup_old h o l x : h !! l = Some x → (alloc h o).2 !! l = Some x.
Proof.
  intros Hl. unfold alloc. simpl. rewrite lookup_insert_ne; [done|].
  intros <-. pose proof (alloc_lookup_None h o) as Hn. unfold alloc in Hn.
  simpl in Hn. congruence.
Qed.

Lemma alloc_subseteq h o : h ⊆ (alloc h o).2.
Proof. unfold alloc. simpl. apply insert_subseteq, (alloc_lookup_None h o). Qed.

Lemma alloc_size h o : size (alloc h o).2 = S (size h).
Proof. unfold alloc. simpl. apply map_size_insert_None, (alloc_lookup_None h o). Qed.

Lemma new_auto_stub_alloc e h : new_auto_stub e h = alloc h (auto_object e).
Proof.
  unfold new_auto_stub, jestFn_call, alloc, auto_object.
  by destruct (resolve_jestFn e).
Qed.

Lemma new_partial_stub_alloc e h : new_partial_stub e h = alloc h (partial_object e).
Proof.
  unfold new_partial_stub, jestFn_call, alloc, partial_object.
  by destruct (resolve_jestFn e).
Qed.

Lemma built_empty h0 obj : built h0 obj ∅ h0.
Proof.
  split; [done|]. split.
  - intros k v Hk. by rewrite lookup_empty in Hk.
  - intros k1 k2 l Hk. by rewrite lookup_empty in Hk.
Qed.

Lemma built_install h0 obj m h k :
  built h0 obj m h →
  built h0 obj (<[k := VRef (alloc h obj).1]> m) (alloc h obj).2.
Proof.
  intros (Hsub & Hobj & Hinj).
  pose proof (alloc_lookup_None h obj) as Hnew.
  assert (∀ k', m !! k' ≠ Some (VRef (alloc h obj).1)) as Hnot.
  { intros k' Hk'. destruct (Hobj _ _ Hk') as (l & Heq & _ & Hl).
    unfold alloc in *. simpl in *. injection Heq as Heq. congruence. }
  split; [|split].
  - etrans; [exact Hsub|apply alloc_subseteq].
  - intros k' v. rewrite lookup_insert. case_decide as Hk.
    + intros [= <-]. eexists. split; [done|]. split; [|apply alloc_lookup_new].
      intros Hin. apply (subseteq_dom _ _ Hsub) in Hin.
      by apply alloc_fresh in Hin.
    + intros Hk'. destruct (Hobj _ _ Hk') as (l & -> & Hl0 & Hl).
      exists l. split; [done|]. split; [done|]. by apply alloc_lookup_old.
  - intros k1 k2 l. rewrite !lookup_insert.
    repeat case_decide; subst; try done.
    + intros [= <-] Hk2. by apply Hnot in Hk2.
    + intros Hk1 [= <-]. by apply Hnot in Hk1.
    + apply Hinj.
Qed.

(** *** The walk of createAutoMock *)

Lemma built_alloc h0 obj m h :
  built h0 obj m h → built h0 obj m (alloc h obj).2.
Proof.
  intros (Hsub & Hobj & Hinj). split; [|split; [|done]].
  - etrans; [exact Hsub|apply alloc_subseteq].
  - intros k v Hk. destruct (Hobj _ _ Hk) as (l & -> & Hl0 & Hl).
    exists l. split; [done|]. split; [done|]. by apply alloc_lookup_old.
Qed.

Lemma built_assign h0 obj m h k :
  built h0 obj m h →
  built h0 obj (assign k (VRef (alloc h obj).1) m) (alloc h obj).2.
Proof.
  intros Hb. unfold assign. case_decide; [by apply built_alloc|].
  by apply built_install.
Qed.

Lemma is_function_spec v : is_function v = true ↔ function_value v.
Proof.
  split.
  - destruct v; try discriminate; intros _; constructor.
  - by intros [].
Qed.

(** The test of the code against the wording of the specification. *)
Lemma mockable_spec d : mockable d = true ↔ callable_or_accessor d.
Proof.
  destruct d as [v|[g|] s]; cbn [mockable descriptor_get truthy].
  - rewrite is_function_spec. split; [by constructor|by inversion 1].
  - split; [constructor|done].
  - split; [done|inversion 1].
Qed.

Lemma mockable_false_spec d : mockable d = false ↔ ¬ callable_or_accessor d.
Proof.
  rewrite <- mockable_spec. by destruct (mockable d).
Qed.

Lemma visit_unfold e st k d :
  visit e st (k, d) =
  if decide (k ≠ "constructor" ∧ k ∉ seen st) then
    if mockable d then
      Walk (assign k (VRef (alloc (store st) (auto_object e)).1) (mock st))
           ({[k]} ∪ seen st) (alloc (store st) (auto_object e)).2
    else Walk (mock st) ({[k]} ∪ seen st) (store st)
  else st.
Proof.
  unfold visit. rewrite new_auto_stub_alloc. cbn [fst snd].
  destruct (alloc (store st) (auto_object e)) as [l h']. cbn [fst snd].
  rewrite <- bool_decide_and. by rewrite decide_bool_decide.
Qed.

Lemma walk_concat e chain st :
  walk e st chain = foldl (visit e) st (concat chain).
Proof.
  unfold walk. revert st. induction chain as [|p chain IH]; intros st; [done|].
  simpl. rewrite foldl_app. apply IH.
Qed.

(** One visit: the names of the surrogate and the names seen after it. *)
Lemma visit_dom e st k0 d0 k :
  k ∈ dom (mock (visit e st (k0, d0))) ↔
    k ∈ dom (mock st)
    ∨ (k = k0 ∧ k0 ≠ "constructor" ∧ (k0 ∉ seen st) ∧ k0 ≠ "__proto__"
       ∧ mockable d0 = true).
Proof.
  rewrite visit_unfold. case_decide as Hd.
  - destruct Hd as [Hc Hs]. destruct (mockable d0); cbn [mock].
    + unfold assign. case_decide as Hp.
      * split; [by left|]. intros [?|(? & ? & ? & ? & ?)]; done.
      * rewrite dom_insert, elem_of_union, elem_of_singleton. split.
        -- intros [->|?]; [by right|by left].
        -- intros [?|(-> & _)]; [by right|by left].
    + split; [by left|]. intros [?|(? & ? & ? & ? & ?)]; done.
  - split; [by left|]. intros [?|(? & ? & ? & ? & ?)]; [done|].
    exfalso. by apply Hd.
Qed.

Lemma visit_seen e st k0 d0 k :
  k ∈ seen (visit e st (k0, d0)) ↔ k ∈ seen st ∨ (k = k0 ∧ k0 ≠ "constructor").
Proof.
  rewrite visit_unfold. case_decide as Hd.
  - destruct Hd as [Hc Hs].
    destruct (mockable d0); cbn [seen];
      rewrite elem_of_union, elem_of_singleton; split.
    + intros [->|?]; [by right|by left].
    + intros [?|[-> _]]; [by right|by left].
    + intros [->|?]; [by right|by left].
    + intros [?|[-> _]]; [by right|by left].
  - split; [by left|]. intros [?|[-> Hc]]; [done|].
    destruct (decide (k0 ∈ seen st)); [done|]. exfalso. by apply Hd.
Qed.

Lemma visit_dom_seen e st entry :
  dom (mock st) ⊆ seen st →
  dom (mock (visit e st entry)) ⊆ seen (visit e st entry).
Proof.
  intros Hs k. destruct entry as [k0 d0]. rewrite visit_dom, visit_seen.
  intros [?|(-> & ? & _)]; [left; by apply Hs|by right].
Qed.

Lemma visit_inv e h0 st entry :
  walk_inv e h0 st → walk_inv e h0 (visit e st entry).
Proof.
  intros (Hb & Hseen). split; [|by apply visit_dom_seen].
  destruct entry as [k d]. rewrite visit_unfold.
  case_decide as Hd; [|done].
  destruct (mockable d); cbn [mock store]; [by apply built_assign|done].
Qed.

Lemma foldl_visit_inv e h0 entries st :
  walk_inv e h0 st → walk_inv e h0 (foldl (visit e) st entries).
Proof.
  revert st. induction entries as [|x entries IH]; intros st Hst; [done|].
  simpl. by apply IH, visit_inv.
Qed.

Lemma walk_inv_init e h0 : walk_inv e h0 (Walk ∅ ∅ h0).
Proof. split; [apply built_empty|]. simpl. set_solver. Qed.

(** Which names end up in the surrogate. *)
Lemma foldl_visit_dom e entries st k :
  k ∈ dom (mock (foldl (visit e) st entries)) ↔
    k ∈ dom (mock st)
    ∨ ((k ∉ seen st) ∧ k ≠ "constructor" ∧ k ≠ "__proto__"
       ∧ ∃ d, first_desc k entries = Some d ∧ mockable d = true).
Proof.
  revert st. induction entries as [|[k0 d0] entries IH]; intros st.
  - simpl. split; [by left|].
    intros [H|(_ & _ & _ & d & Hd & _)]; [done|discriminate].
  - simpl foldl. rewrite IH, visit_dom, visit_seen. simpl first_desc.
    case_decide as Heq.
    + subst k0. split.
      * intros [[?|(_ & Hc & Hs & Hp & Hm)]|(Hns & Hc & Hp & d & Hd & Hm)].
        -- by left.
        -- right. split; [done|]. split; [done|]. split; [done|]. by exists d0.
        -- exfalso. apply Hns. by right.
      * intros [?|(Hs & Hc & Hp & d & [= <-] & Hm)].
        -- left. by left.
        -- left. by right.
    + split.
      * intros [[?|(-> & _)]|(Hns & Hc & Hp & d & Hd & Hm)].
        -- by left.
        -- done.
        -- right. split; [intros ?; apply Hns; by left|].
           split; [done|]. split; [done|]. by exists d.
      * intros [?|(Hs & Hc & Hp & d & Hd & Hm)].
        -- left. by left.
        -- right. split; [by intros [?|[-> _]]|].
           split; [done|]. split; [done|]. by exists d.
Qed.

(** One function object is created per name, as long as no stub is made for
    a member [__proto__]. *)
Lemma visit_size e st k0 d0 :
  dom (mock st) ⊆ seen st →
  (k0 = "__proto__" → "__proto__" ∈ seen st ∨ mockable d0 = false) →
  size (store (visit e st (k0, d0))) + size (mock st)
  = size (store st) + size (mock (visit e st (k0, d0))).
Proof.
  intros Hs Hp. rewrite visit_unfold. case_decide as Hd; [|lia].
  destruct Hd as [Hc Hk].
  destruct (mockable d0) eqn:Hm; cbn [mock store]; [|lia].
  unfold assign. case_decide as Heq.
  - destruct (Hp Heq) as [Hin|?]; [by subst|done].
  - rewrite alloc_size, map_size_insert_None; [lia|].
    apply not_elem_of_dom. intros Hin. by apply Hk, Hs.
Qed.

Lemma foldl_visit_size e entries st :
  dom (mock st) ⊆ seen st →
  ("__proto__" ∈ seen st
   ∨ ∀ d, first_desc "__proto__" entries = Some d → mockable d = false) →
  size (store (foldl (visit e) st entries)) + size (mock st)
  = size (store st) + size (mock (foldl (visit e) st entries)).
Proof.
  revert st. induction entries as [|[k0 d0] entries IH]; intros st Hs Hp;
    [simpl; lia|].
  simpl foldl.
  assert (size (store (visit e st (k0, d0))) + size (mock st)
          = size (store st) + size (mock (visit e st (k0, d0)))) as Hstep.
  { apply visit_size; [done|]. intros ->.
    destruct Hp as [Hp|Hp]; [by left|]. right. apply Hp. cbn [first_desc].
    by rewrite decide_True. }
  assert ("__proto__" ∈ seen (visit e st (k0, d0))
          ∨ ∀ d, first_desc "__proto__" entries = Some d → mockable d = false)
    as Hp'.
  { destruct Hp as [Hp|Hp]; [left; apply visit_seen; by left|].
    destruct (decide (k0 = "__proto__")) as [->|Hne].
    - left. apply visit_seen. by right.
    - right. intros d Hd. apply Hp. cbn [first_desc]. by rewrite decide_False. }
  pose proof (IH _ (visit_dom_seen e st (k0, d0) Hs) Hp') as Hrest.
  lia.
Qed.

Lemma createAutoMock_inv e target h :
  walk_inv e h (Walk (createAutoMock e target h).1
                     (seen (walk e (Walk ∅ ∅ h) (prototype_chain target)))
                     (createAutoMock e target h).2).
Proof.
  unfold createAutoMock. cbn [fst snd].
  pose proof (foldl_visit_inv e h (concat (prototype_chain target)) _
                (walk_inv_init e h)) as Hinv.
  rewrite <- walk_concat in Hinv.
  by destruct (walk e (Walk ∅ ∅ h) (prototype_chain target)).
Qed.

Lemma createAutoMock_built e target h :
  built h (auto_object e) (createAutoMock e target h).1 (createAutoMock e target h).2.
Proof. apply (createAutoMock_inv e target h). Qed.

Lemma createAutoMock_size e target h :
  (∀ d, lookup_member (prototype_chain target) "__proto__" = Some d →
        mockable d = false) →
  size (createAutoMock e target h).2 = size h + size (createAutoMock e target h).1.
Proof.
  intros Hp. unfold createAutoMock. cbn [fst snd]. rewrite walk_concat.
  pose proof (foldl_visit_size e (concat (prototype_chain target)) (Walk ∅ ∅ h))
    as Hsz.
  cbn [mock seen store] in Hsz. rewrite map_size_empty in Hsz.
  rewrite <- Hsz; [lia|set_solver|by right].
Qed.

Lemma createAutoMock_dom e target h k :
  k ∈ dom (createAutoMock e target h).1 ↔
    k ≠ "constructor" ∧ k ≠ "__proto__"
    ∧ ∃ d, lookup_member (prototype_chain target) k = Some d ∧ mockable d = true.
Proof.
  unfold createAutoMock, lookup_member. cbn [fst]. rewrite walk_concat.
  rewrite foldl_visit_dom. cbn [mock seen].
  rewrite dom_empty_L. split.
  - intros [Hin|(_ & Hrest)]; [by apply elem_of_empty in Hin|done].
  - intros Hrest. right. split; [apply not_elem_of_empty|done].
Qed.

Lemma elem_of_concat {A} (x : A) (ls : list (list A)) :
  x ∈ concat ls → ∃ l, x ∈ l ∧ l ∈ ls.
Proof.
  induction ls as [|l ls IH]; simpl.
  - by intros ?%elem_of_nil.
  - intros [Hx|Hx]%elem_of_app.
    + exists l. split; [done|]. apply elem_of_cons. by left.
    + destruct (IH Hx) as (l' & Hl' & Hin). exists l'. split; [done|].
      apply elem_of_cons. by right.
Qed.

Lemma first_desc_elem_of k entries d :
  first_desc k entries = Some d → (k, d) ∈ entries.
Proof.
  induction entries as [|[k0 d0] entries IH]; [done|]. simpl.
  case_decide as Hk.
  - intros [= <-]. subst. apply elem_of_cons. by left.
  - intros Hd. apply elem_of_cons. right. by apply IH.
Qed.

Lemma first_desc_app k a b :
  first_desc k (a ++ b)
  = match first_desc k a with Some d => Some d | None => first_desc k b end.
Proof.
  induction a as [|[k0 d0] a IH]; [done|]. simpl. by case_decide.
Qed.

Lemma lookup_member_cons k p chain :
  lookup_member (p :: chain) k
  = match first_desc k p with Some d => Some d | None => lookup_member chain k end.
Proof. unfold lookup_member. cbn [concat]. apply first_desc_app. Qed.

(** The definition property lookup finds is the one on the most derived
    prototype that has the name. *)
Lemma lookup_member_most_derived pre p post k d :
  Forall (λ q, first_desc k q = None) pre →
  first_desc k p = Some d →
  lookup_member (pre ++ p :: post) k = Some d.
Proof.
  intros Hpre Hp. induction Hpre as [|q pre Hq _ IH]; cbn [app].
  - by rewrite lookup_member_cons, Hp.
  - by rewrite lookup_member_cons, Hq.
Qed.

(** C5. For a type with no method or getter named [__proto__], the names
    [createAutoMock] stubs are exactly the members, other than the
    constructor, whose most derived definition on the prototype chain is a
    method or has a getter.  So every such member is included; the
    definition on the most derived prototype that has the name decides
    alone, whatever an ancestor defines under it; the constructor, members
    whose definition is a data field holding no function, and accessors
    with a setter only are left out; one function object is created per
    name by the call and no two names share one; and a type with no method
    or getter anywhere besides its constructor yields the empty surrogate
    and creates nothing. *)
Theorem createAutoMock_members (e : env) (target : type) (h : heap) :
  let chain := prototype_chain target in
  let r := createAutoMock e target h in
  (∀ d, lookup_member chain "__proto__" = Some d → ¬ callable_or_accessor d) →
  (∀ k, k ∈ dom r.1 ↔
        k ≠ "constructor"
        ∧ ∃ d, lookup_member chain k = Some d ∧ callable_or_accessor d)
  ∧ (∀ pre p post k d, chain = pre ++ p :: post →
       Forall (λ q, first_desc k q = None) pre →
       first_desc k p = Some d →
       lookup_member chain k = Some d)
  ∧ size r.2 = size h + size r.1
  ∧ (∀ k v, r.1 !! k = Some v →
       ∃ l, v = VRef l ∧ (l ∉ dom h) ∧ r.2 !! l = Some (auto_object e l))
  ∧ (∀ k1 k2 l, r.1 !! k1 = Some (VRef l) → r.1 !! k2 = Some (VRef l) → k1 = k2)
  ∧ ("constructor" ∉ dom r.1)
  ∧ (∀ k v, lookup_member chain k = Some (DataProperty v) →
            ¬ function_value v → k ∉ dom r.1)
  ∧ (∀ k s, lookup_member chain k = Some (AccessorProperty None s) →
            k ∉ dom r.1)
  ∧ ((∀ p entry, p ∈ chain → entry ∈ p → entry.1 ≠ "constructor" →
                   ¬ callable_or_accessor entry.2) →
     r = (∅, h)).
Proof.
  intros chain r Hproto. subst chain r.
  assert (∀ k, k ∈ dom (createAutoMock e target h).1 ↔
               k ≠ "constructor"
               ∧ ∃ d, lookup_member (prototype_chain target) k = Some d
                      ∧ callable_or_accessor d) as Hdom.
  { intros k. rewrite createAutoMock_dom. split.
    - intros (Hc & _ & d & Hd & Hm). split; [done|]. exists d.
      split; [done|]. by apply mockable_spec.
    - intros (Hc & d & Hd & Hm). split; [done|]. split.
      + intros ->. by apply (Hproto d).
      + exists d. split; [done|]. by apply mockable_spec. }
  assert (size (createAutoMock e target h).2
          = size h + size (createAutoMock e target h).1) as Hsz.
  { apply createAutoMock_size. intros d Hd.
    apply mockable_false_spec. by apply Hproto. }
  pose proof (createAutoMock_built e target h) as (Hsub & Hobj & Hinj).
  split; [exact Hdom|].
  split; [intros pre p post k d ->; apply lookup_member_most_derived|].
  split; [exact Hsz|].
  split; [exact Hobj|].
  split; [exact Hinj|].
  split; [rewrite Hdom; by intros [? _]|].
  split; [|split].
  - intros k v Hk Hv. rewrite Hdom. intros (_ & d & Hd & Hm).
    rewrite Hk in Hd. injection Hd as <-. inversion Hm. done.
  - intros k s Hk. rewrite Hdom. intros (_ & d & Hd & Hm).
    rewrite Hk in Hd. injection Hd as <-. inversion Hm.
  - intros Hnone.
    assert ((createAutoMock e target h).1 = ∅) as Hmock.
    { apply dom_empty_inv_L, set_eq. intros k. rewrite Hdom.
      split; [|by intros ?%elem_of_empty]. intros (Hc & d & Hd & Hm). exfalso.
      apply first_desc_elem_of, elem_of_concat in Hd as (p & Hin & Hp).
      by apply (Hnone p (k, d) Hp Hin Hc). }
    rewrite Hmock, map_size_empty in Hsz.
    destruct (createAutoMock e target h) as [m h']. simpl in *. subst m.
    f_equal. symmetry. apply map_subseteq_size_eq; [done|lia].
Qed.


(** *** createPartialMock *)

Lemma install_partial_unfold e acc k :
  install_partial e acc k =
  (assign k (VRef (alloc acc.2 (partial_object e)).1) acc.1,
   (alloc acc.2 (partial_object e)).2).
Proof.
  unfold install_partial. rewrite new_partial_stub_alloc.
  by destruct (alloc acc.2 (partial_object e)).
Qed.

Lemma foldl_install_built e h0 names acc :
  built h0 (partial_object e) acc.1 acc.2 →
  built h0 (partial_object e) (foldl (install_partial e) acc names).1
                              (foldl (install_partial e) acc names).2.
Proof.
  revert acc. induction names as [|k names IH]; intros acc Hb; [done|].
  simpl. apply IH. rewrite install_partial_unfold. cbn [fst snd].
  by apply built_assign.
Qed.

Lemma assign_dom k v (m : gmap string value) :
  dom (assign k v m) = dom m ∪ ({[k]} ∖ {["__proto__"]}).
Proof.
  unfold assign. case_decide as Hk.
  - subst k. set_solver.
  - rewrite dom_insert_L. set_solver.
Qed.

Lemma foldl_install_dom e names acc :
  dom (foldl (install_partial e) acc names).1
  = dom acc.1 ∪ (list_to_set names ∖ {["__proto__"]}).
Proof.
  revert acc. induction names as [|k names IH]; intros acc; simpl.
  - set_solver.
  - rewrite IH, install_partial_unfold. cbn [fst]. rewrite assign_dom.
    set_solver.
Qed.

Lemma createPartialMock_dom e target names h :
  dom (createPartialMock e target names h).1
  = list_to_set names ∖ {["__proto__"]}.
Proof.
  unfold createPartialMock. rewrite foldl_install_dom. cbn [fst].
  by rewrite dom_empty_L, (left_id_L ∅ (∪)).
Qed.

(** C7. For a list of names without [__proto__], [createPartialMock]
    returns a surrogate whose names are exactly the requested ones, each
    bound to a function object created by this call and shared with no
    other name; the type is never consulted, so the result is the same for
    every type, and there is no failing outcome. *)
Theorem createPartialMock_names (e : env) (target : type)
    (mockMethods : list string) (h : heap) :
  let r := createPartialMock e target mockMethods h in
  "__proto__" ∉ mockMethods →
  dom r.1 = list_to_set mockMethods
  ∧ (∀ k, k ∈ mockMethods →
       ∃ l, r.1 !! k = Some (VRef l)
            ∧ (l ∉ dom h) ∧ r.2 !! l = Some (partial_object e l))
  ∧ (∀ k1 k2 l, r.1 !! k1 = Some (VRef l) → r.1 !! k2 = Some (VRef l) → k1 = k2)
  ∧ h ⊆ r.2
  ∧ (∀ target', createPartialMock e target' mockMethods h = r).
Proof.
  intros r Hproto. subst r.
  assert (dom (createPartialMock e target mockMethods h).1
          = list_to_set mockMethods) as Hdom.
  { rewrite createPartialMock_dom. apply set_eq. intros k.
    rewrite elem_of_difference, elem_of_singleton, elem_of_list_to_set.
    split; [by intros [? _]|]. intros Hk. split; [done|]. by intros ->. }
  unfold createPartialMock in *.
  pose proof (foldl_install_built e h mockMethods (∅, h) (built_empty h _))
    as (Hsub & Hobj & Hinj).
  split; [done|]. split; [|done].
  intros k Hk.
  assert (k ∈ dom (foldl (install_partial e) (∅, h) mockMethods).1) as Hin.
  { rewrite Hdom. by apply elem_of_list_to_set. }
  apply elem_of_dom in Hin as [v Hv].
  destruct (Hobj _ _ Hv) as (l & -> & Hl & Hl'). by exists l.
Qed.

(** *** Properties of function objects *)

Lemma slot_name_inj op op' : slot_name op = slot_name op' → op = op'.
Proof. by destruct op, op'. Qed.

Lemma slot_name_op_name op op' : slot_name op ≠ op_name op'.
Proof. by destruct op, op'. Qed.

Lemma get_set_prop_eq h l props k v :
  h !! l = Some (OFunction props) → get_prop (set_prop h l k v) l k = v.
Proof.
  intros Hl. unfold get_prop, set_prop. rewrite Hl.
  by rewrite !lookup_insert_eq.
Qed.

Lemma get_set_prop_ne h l k k' v :
  k ≠ k' → get_prop (set_prop h l k v) l k' = get_prop h l k'.
Proof.
  intros Hk. unfold get_prop, set_prop.
  destruct (h !! l) as [[|props]|] eqn:Hl; rewrite ?Hl; try done.
  by rewrite lookup_insert_eq, lookup_insert_ne.
Qed.

Lemma set_prop_other h l l' k v : l' ≠ l → set_prop h l k v !! l' = h !! l'.
Proof.
  intros Hl'. unfold set_prop.
  destruct (h !! l) as [[|props]|]; try done. by rewrite lookup_insert_ne.
Qed.

Lemma set_prop_exposes h l k v op :
  (∀ op', k ≠ op_name op') → exposes h l op → exposes (set_prop h l k v) l op.
Proof.
  intros Hk (props & Hl & Hop). unfold exposes, set_prop. rewrite Hl.
  eexists. rewrite lookup_insert_eq. split; [done|].
  rewrite lookup_insert_ne; [done|apply Hk].
Qed.

Lemma call_method_exposed H h l op args :
  exposes h l op →
  call_method H l (op_name op) args h = config_call op l args h.
Proof.
  intros (props & Hl & Hop). unfold call_method. by rewrite Hl, Hop.
Qed.

Lemma auto_fallback_exposes h l op :
  h !! l = Some (OFunction (auto_fallback_props l)) → exposes h l op.
Proof. intros Hl. eexists. split; [done|]. by destruct op. Qed.

Lemma partial_fallback_exposes h l :
  h !! l = Some (OFunction (partial_fallback_props l)) →
  exposes h l MockReturnValue ∧ exposes h l MockResolvedValue.
Proof. intros Hl. split; by eexists. Qed.

Lemma auto_fallback_slot_undefined h l op :
  h !! l = Some (OFunction (auto_fallback_props l)) →
  get_prop h l (slot_name op) = VUndefined.
Proof. intros Hl. unfold get_prop. rewrite Hl. by destruct op. Qed.

Lemma auto_object_fallback e l :
  resolve_jestFn e = false → auto_object e l = OFunction (auto_fallback_props l).
Proof. intros He. unfold auto_object. by rewrite He. Qed.

Lemma partial_object_fallback e l :
  resolve_jestFn e = false →
  partial_object e l = OFunction (partial_fallback_props l).
Proof. intros He. unfold partial_object. by rewrite He. Qed.

(** What one configuration call does to an exposing stub. *)
Lemma configure_set_prop H h l c :
  exposes h l c.1 → configure H l h c = set_prop h l (slot_name c.1) c.2.
Proof.
  intros Hex. unfold configure. by rewrite call_method_exposed.
Qed.

Lemma set_prop_function h l k v props :
  h !! l = Some (OFunction props) →
  set_prop h l k v !! l = Some (OFunction (<[k := v]> props)).
Proof. intros Hl. unfold set_prop. rewrite Hl. apply lookup_insert_eq. Qed.

(** After a history of exposed operations, each slot holds the value last
    given to its operation, what was exposed still is, and the stub is still
    a function object. *)
Lemma configure_all_slot H l cs : ∀ h op,
  (∀ c, c ∈ cs → exposes h l c.1) →
  get_prop (configure_all H l cs h) l (slot_name op)
  = foldl (λ acc c, if decide (c.1 = op) then c.2 else acc)
          (get_prop h l (slot_name op)) cs
  ∧ (∀ op', exposes h l op' → exposes (configure_all H l cs h) l op')
  ∧ (∀ props, h !! l = Some (OFunction props) →
       ∃ props', configure_all H l cs h !! l = Some (OFunction props')).
Proof.
  induction cs as [|c cs IH]; intros h op Hex.
  { split; [done|]. split; [done|]. intros props Hl. by exists props. }
  unfold configure_all in *. simpl foldl.
  assert (exposes h l c.1) as Hc by (apply Hex, elem_of_cons; by left).
  rewrite configure_set_prop by done.
  assert (∀ op', exposes h l op' →
                 exposes (set_prop h l (slot_name c.1) c.2) l op') as Hkeep.
  { intros op' Hop'. apply set_prop_exposes; [|done].
    intros ?. apply slot_name_op_name. }
  destruct (IH (set_prop h l (slot_name c.1) c.2) op) as (IH1 & IH2 & IH3).
  { intros c' Hc'. apply Hkeep, Hex, elem_of_cons. by right. }
  split; [|split].
  - rewrite IH1. f_equal. case_decide as Hop.
    + subst op. destruct Hc as (props & Hl & _).
      by rewrite (get_set_prop_eq _ _ props).
    + apply get_set_prop_ne. by intros Heq%slot_name_inj.
  - intros op' Hop'. by apply IH2, Hkeep.
  - intros props Hl. eapply IH3. by apply set_prop_function.
Qed.

Lemma call_stub H h l props args :
  h !! l = Some (OFunction props) → call H (VRef l) args h = stub_call H l args h.
Proof. intros Hl. simpl. by rewrite Hl. Qed.

Lemma createAutoMock_fallback_stub e target h0 k l :
  resolve_jestFn e = false →
  (createAutoMock e target h0).1 !! k = Some (VRef l) →
  (createAutoMock e target h0).2 !! l = Some (OFunction (auto_fallback_props l)).
Proof.
  intros He Hk. destruct (createAutoMock_built e target h0) as (_ & Hobj & _).
  destruct (Hobj _ _ Hk) as (l' & [= <-] & _ & Hl).
  by rewrite auto_object_fallback in Hl.
Qed.

Lemma createPartialMock_fallback_stub e target names h0 k l :
  resolve_jestFn e = false →
  (createPartialMock e target names h0).1 !! k = Some (VRef l) →
  (createPartialMock e target names h0).2 !! l
  = Some (OFunction (partial_fallback_props l)).
Proof.
  intros He Hk. unfold createPartialMock in *.
  destruct (foldl_install_built e h0 names (∅, h0) (built_empty h0 _))
    as (_ & Hobj & _).
  destruct (Hobj _ _ Hk) as (l' & [= <-] & _ & Hl).
  by rewrite partial_object_fallback in Hl.
Qed.

(** A stub as a builder leaves it, then configured through operations it
    exposes: the call is decided by the values last given, in the order of
    the tests in the body of [fn]. *)
Lemma stub_call_after_history H h0 l props cs args :
  h0 !! l = Some (OFunction props) →
  (∀ op, props !! slot_name op = None) →
  (∀ c, c ∈ cs → exposes h0 l c.1) →
  call H (VRef l) args (configure_all H l cs h0) =
    (if truthy (last_configured MockImplementation cs)
     then host_call H (last_configured MockImplementation cs) args
            (configure_all H l cs h0)
     else if is_defined (last_configured MockReturnValue cs)
     then (Returned (last_configured MockReturnValue cs), configure_all H l cs h0)
     else if is_defined (last_configured MockResolvedValue cs)
     then (Returned (promise_resolve (last_configured MockResolvedValue cs)),
           configure_all H l cs h0)
     else (Returned VUndefined, configure_all H l cs h0)).
Proof.
  intros Hl Hnone Hex.
  assert (∀ op, get_prop (configure_all H l cs h0) l (slot_name op)
                = last_configured op cs) as Hslot.
  { intros op. destruct (configure_all_slot H l cs h0 op Hex) as (-> & _).
    unfold get_prop. by rewrite Hl, Hnone. }
  destruct (configure_all_slot H l cs h0 MockReturnValue Hex) as (_ & _ & Hfn).
  destruct (Hfn _ Hl) as [props' Hl'].
  rewrite (call_stub _ _ _ props') by done. unfold stub_call.
  pose proof (Hslot MockImplementation) as Hi.
  pose proof (Hslot MockReturnValue) as Hr.
  pose proof (Hslot MockResolvedValue) as Hp.
  simpl slot_name in Hi, Hr, Hp. by rewrite Hi, Hr, Hp.
Qed.

Lemma auto_fallback_no_slot l op : auto_fallback_props l !! slot_name op = None.
Proof. by destruct op. Qed.

Lemma partial_fallback_no_slot l op : partial_fallback_props l !! slot_name op = None.
Proof. by destruct op. Qed.

(** *** The stub function contract on the self-built path *)

(** C1 (the code departs from it). On a stub built by [createAutoMock]
    without a mocking runtime, [mockRejectedValue(err)] stores [err] and
    returns the stub, but the stored value is never read: the next call
    returns [undefined], and awaiting that yields [undefined] instead of
    failing with [err]. *)
Theorem mockRejectedValue_not_surfaced (H : host) (e : env) (target : type)
    (h0 : heap) (k : string) (l : loc) (err : value) (args : list value) :
  resolve_jestFn e = false →
  (createAutoMock e target h0).1 !! k = Some (VRef l) →
  let r := call_method H l "mockRejectedValue" [err] (createAutoMock e target h0).2 in
  r.1 = Returned (VRef l)
  ∧ get_prop r.2 l "mockRejectedValueValue" = err
  ∧ call H (VRef l) args r.2 = (Returned VUndefined, r.2)
  ∧ await VUndefined = Returned VUndefined
  ∧ await VUndefined ≠ Thrown (Raised err).
Proof.
  intros He Hk r.
  pose proof (createAutoMock_fallback_stub e target h0 k l He Hk) as Hl.
  assert (∀ op, exposes (createAutoMock e target h0).2 l op) as Hex
    by (intros op; by apply auto_fallback_exposes).
  assert (r = config_call MockRejectedValue l [err] (createAutoMock e target h0).2)
    as Hr by apply (call_method_exposed H _ l MockRejectedValue [err] (Hex _)).
  rewrite Hr. unfold config_call. cbn [fst snd head default option_map slot_name].
  split; [done|].
  split; [by apply (get_set_prop_eq _ _ _ _ _ Hl)|].
  split; [|done].
  unfold set_prop. rewrite Hl.
  erewrite call_stub by apply lookup_insert_eq.
  unfold stub_call, get_prop. rewrite lookup_insert_eq. done.
Qed.

(** C2 (as the code has it). On a stub built without a mocking runtime, by
    [createAutoMock] or by [createPartialMock], and configured by any
    history of the operations it exposes other than [mockRejectedValue], a
    call is decided by a fixed order over the stored values, whatever the
    order of configuration: a truthy implementation is applied to the
    arguments; otherwise a fixed-return value other than [undefined] is
    returned as it is; otherwise a fixed-resolved value other than
    [undefined] is returned in a fulfilled promise; otherwise [undefined].
    For each operation the value given last is the stored one.  So after a
    return value and then an implementation, the implementation is used. *)
Theorem stub_call_precedence (H : host) (e : env) (target : type)
    (mockMethods : list string) (h0 : heap) (k : string) (l : loc)
    (cs : list (config_op * value)) (args : list value) :
  resolve_jestFn e = false →
  (∀ c, c ∈ cs → c.1 ≠ MockRejectedValue) →
  let impl := last_configured MockImplementation cs in
  let ret := last_configured MockReturnValue cs in
  let res := last_configured MockResolvedValue cs in
  let result h :=
    if truthy impl then host_call H impl args h
    else if is_defined ret then (Returned ret, h)
    else if is_defined res then (Returned (promise_resolve res), h)
    else (Returned VUndefined, h) in
  ((createAutoMock e target h0).1 !! k = Some (VRef l) →
   let h := configure_all H l cs (createAutoMock e target h0).2 in
   call H (VRef l) args h = result h
   ∧ (∀ v f, cs = [(MockReturnValue, v); (MockImplementation, f)] →
             truthy f = true → call H (VRef l) args h = host_call H f args h))
  ∧ ((createPartialMock e target mockMethods h0).1 !! k = Some (VRef l) →
     (∀ c, c ∈ cs → c.1 = MockReturnValue ∨ c.1 = MockResolvedValue) →
     let h := configure_all H l cs (createPartialMock e target mockMethods h0).2 in
     call H (VRef l) args h = result h).
Proof.
  intros He _ impl ret res result. split.
  - intros Hk h.
    pose proof (createAutoMock_fallback_stub e target h0 k l He Hk) as Hl.
    assert (call H (VRef l) args h = result h) as Hcall.
    { apply (stub_call_after_history H _ l _ cs args Hl).
      - intros op. apply auto_fallback_no_slot.
      - intros c _. by apply auto_fallback_exposes. }
    split; [done|].
    intros v f -> Hf. rewrite Hcall. subst result impl. cbn beta.
    change (last_configured MockImplementation
              [(MockReturnValue, v); (MockImplementation, f)]) with f.
    by rewrite Hf.
  - intros Hk Hops h.
    pose proof (createPartialMock_fallback_stub e target mockMethods h0 k l He Hk)
      as Hl.
    apply (stub_call_after_history H _ l _ cs args Hl).
    + intros op. apply partial_fallback_no_slot.
    + intros c Hc. destruct (partial_fallback_exposes _ _ Hl) as [Hr Hp].
      destruct (Hops c Hc) as [-> | ->]; done.
Qed.

(** C3 (the code departs from it). On a stub built by [createAutoMock]
    without a mocking runtime a call records nothing: with no implementation
    in force, and whatever else was configured, the heap after the call is
    the heap before it, so no reading of the stub's state is a log to which
    each call appends its arguments. *)
Theorem stub_call_not_logged (H : host) (e : env) (target : type)
    (h0 : heap) (k : string) (l : loc) (cs : list (config_op * value))
    (args : list value) :
  resolve_jestFn e = false →
  (createAutoMock e target h0).1 !! k = Some (VRef l) →
  truthy (last_configured MockImplementation cs) = false →
  let h := configure_all H l cs (createAutoMock e target h0).2 in
  (call H (VRef l) args h).2 = h
  ∧ ¬ ∃ log : heap → loc → list (list value),
        ∀ a, log (call H (VRef l) a h).2 l = log h l ++ [a].
Proof.
  intros He Hk Hi h.
  pose proof (createAutoMock_fallback_stub e target h0 k l He Hk) as Hl.
  assert (∀ a, (call H (VRef l) a h).2 = h) as Hcall.
  { intros a. subst h. rewrite (stub_call_after_history H _ l _ cs a Hl).
    - rewrite Hi. by repeat destruct (is_defined _).
    - intros op. apply auto_fallback_no_slot.
    - intros c _. by apply auto_fallback_exposes. }
  split; [apply Hcall|].
  intros [log Hlog]. specialize (Hlog []). rewrite Hcall in Hlog.
  apply (f_equal length) in Hlog. rewrite length_app in Hlog.
  cbn [length] in Hlog. lia.
Qed.

(** C4 (as the code has it). Without a mocking runtime, every stub of
    [createAutoMock] exposes the four configuration operations and every
    stub of [createPartialMock] exposes [mockReturnValue] and
    [mockResolvedValue].  An exposed operation returns the stub it belongs
    to, stores its first argument as the value of its own mode, and leaves
    the stored values of the other modes, the operations and every other
    object as they were. *)
Theorem config_ops_fluent (H : host) (e : env) (target : type)
    (mockMethods : list string) (h0 : heap) :
  resolve_jestFn e = false →
  (∀ k l, (createAutoMock e target h0).1 !! k = Some (VRef l) →
          ∀ op, exposes (createAutoMock e target h0).2 l op)
  ∧ (∀ k l, (createPartialMock e target mockMethods h0).1 !! k = Some (VRef l) →
            exposes (createPartialMock e target mockMethods h0).2 l MockReturnValue
            ∧ exposes (createPartialMock e target mockMethods h0).2 l MockResolvedValue)
  ∧ (∀ h l op v rest, exposes h l op →
       let r := call_method H l (op_name op) (v :: rest) h in
       r.1 = Returned (VRef l)
       ∧ get_prop r.2 l (slot_name op) = v
       ∧ (∀ k', k' ≠ slot_name op → get_prop r.2 l k' = get_prop h l k')
       ∧ (∀ l', l' ≠ l → r.2 !! l' = h !! l')
       ∧ (∀ op', exposes h l op' → exposes r.2 l op')).
Proof.
  intros He. split; [|split].
  - intros k l Hk op. eapply auto_fallback_exposes.
    by eapply createAutoMock_fallback_stub.
  - intros k l Hk. eapply partial_fallback_exposes.
    by eapply createPartialMock_fallback_stub.
  - intros h l op v rest Hex r. subst r. rewrite call_method_exposed by done.
    unfold config_call. cbn [fst snd head default].
    destruct Hex as (props & Hl & Hop).
    split; [done|]. split; [by apply (get_set_prop_eq _ _ props)|].
    split; [intros k' Hk'; by apply get_set_prop_ne|].
    split; [intros l' Hl'; by apply set_prop_other|].
    intros op' Hex'. apply set_prop_exposes; [|done].
    intros ?. apply slot_name_op_name.
Qed.

(** *** The contracts at sample inputs *)

Import Samples.

Lemma mockRejectedValue_not_surfaced_witness :
  resolve_jestFn no_jest = false
  ∧ (createAutoMock no_jest UserService ∅).1 !! "find" = Some (VRef 1%positive)
  ∧ let r := call_method echo 1%positive "mockRejectedValue" [VString "boom"]
               (createAutoMock no_jest UserService ∅).2 in
    call echo (VRef 1%positive) [VNumber 7] r.2 = (Returned VUndefined, r.2).
Proof.
  split; [reflexivity|]. split; [vm_compute; reflexivity|].
  apply (mockRejectedValue_not_surfaced echo no_jest UserService ∅ "find"
           1%positive (VString "boom") [VNumber 7]);
    [reflexivity | vm_compute; reflexivity].
Defined.

(** Where the stated order of precedence fails: a resolved value configured
    after a return value does not take over (the call still returns [1], not
    a promise of [2]), and a return value configured after an implementation
    does not take over either. *)
Lemma stub_call_precedence_counterexample :
  let h0 := (createAutoMock no_jest UserService ∅).2 in
  let h1 := configure_all echo 1%positive
              [(MockReturnValue, VNumber 1); (MockResolvedValue, VNumber 2)] h0 in
  let h2 := configure_all echo 1%positive
              [(MockImplementation, VFun 7); (MockReturnValue, VString "late")] h0 in
  (createAutoMock no_jest UserService ∅).1 !! "find" = Some (VRef 1%positive)
  ∧ (call echo (VRef 1%positive) [] h1).1 = Returned (VNumber 1)
  ∧ (call echo (VRef 1%positive) [] h1).1 ≠ Returned (VPromise Fulfilled (VNumber 2))
  ∧ (call echo (VRef 1%positive) [] h2).1 = Returned (VNumber 7)
  ∧ (call echo (VRef 1%positive) [] h2).1 ≠ Returned (VString "late").
Proof. vm_compute. by repeat split. Qed.

Lemma stub_call_precedence_witness :
  let cs := [(MockReturnValue, VNumber 1); (MockImplementation, VFun 7)] in
  resolve_jestFn no_jest = false
  ∧ (createAutoMock no_jest UserService ∅).1 !! "find" = Some (VRef 1%positive)
  ∧ Forall (λ c, c.1 ≠ MockRejectedValue) cs
  ∧ call echo (VRef 1%positive) []
      (configure_all echo 1%positive cs (createAutoMock no_jest UserService ∅).2)
    = host_call echo (VFun 7) []
        (configure_all echo 1%positive cs (createAutoMock no_jest UserService ∅).2).
Proof.
  intros cs. split; [reflexivity|]. split; [vm_compute; reflexivity|].
  assert (Forall (λ c : config_op * value, c.1 ≠ MockRejectedValue) cs) as Hcs
    by (repeat constructor; discriminate).
  split; [exact Hcs|].
  refine (proj2 (proj1 (stub_call_precedence echo no_jest UserService []
                          ∅ "find" 1%positive cs [] eq_refl _) _)
            (VNumber 1) (VFun 7) eq_refl eq_refl).
  - by apply Forall_forall.
  - vm_compute; reflexivity.
Defined.

Lemma stub_call_not_logged_witness :
  let cs := [(MockReturnValue, VNumber 1)] in
  resolve_jestFn no_jest = false
  ∧ (createAutoMock no_jest UserService ∅).1 !! "find" = Some (VRef 1%positive)
  ∧ truthy (last_configured MockImplementation cs) = false
  ∧ (call echo (VRef 1%positive) [VString "arg1"; VString "arg2"]
       (configure_all echo 1%positive cs (createAutoMock no_jest UserService ∅).2)).2
    = configure_all echo 1%positive cs (createAutoMock no_jest UserService ∅).2.
Proof.
  intros cs.
  assert ((createAutoMock no_jest UserService ∅).1 !! "find"
          = Some (VRef 1%positive)) as Hk by (vm_compute; reflexivity).
  refine (conj eq_refl (conj Hk (conj eq_refl _))).
  destruct (stub_call_not_logged echo no_jest UserService ∅ "find"
              1%positive cs [VString "arg1"; VString "arg2"]
              eq_refl Hk eq_refl) as (Hcall & _).
  exact Hcall.
Defined.

(** Where the four operations fail: the stub [createPartialMock] builds has
    no [mockImplementation] and no [mockRejectedValue], so invoking either
    raises a TypeError; and on a stub of [createAutoMock] a return value
    configured after an implementation leaves the implementation in force. *)
Lemma config_ops_counterexample :
  let r := createPartialMock no_jest UserService ["find"] ∅ in
  let a := createAutoMock no_jest UserService ∅ in
  r.1 !! "find" = Some (VRef 1%positive)
  ∧ get_prop r.2 1%positive "mockImplementation" = VUndefined
  ∧ get_prop r.2 1%positive "mockRejectedValue" = VUndefined
  ∧ call_method echo 1%positive "mockImplementation" [VFun 7] r.2
    = (Thrown TypeError, r.2)
  ∧ call_method echo 1%positive "mockRejectedValue" [VString "boom"] r.2
    = (Thrown TypeError, r.2)
  ∧ ¬ exposes r.2 1%positive MockImplementation
  ∧ a.1 !! "find" = Some (VRef 1%positive)
  ∧ (call echo (VRef 1%positive) []
       (configure_all echo 1%positive
          [(MockImplementation, VFun 7); (MockReturnValue, VString "late")] a.2)).1
    = Returned (VNumber 7).
Proof.
  intros r a.
  assert (r.2 !! 1%positive = Some (OFunction (partial_fallback_props 1%positive)))
    as Hl' by (vm_compute; reflexivity).
  split; [vm_compute; reflexivity|].
  split; [vm_compute; reflexivity|].
  split; [vm_compute; reflexivity|].
  split; [vm_compute; reflexivity|].
  split; [vm_compute; reflexivity|].
  split; [|split; vm_compute; reflexivity].
  intros (props & Hl & Hop).
  rewrite Hl' in Hl. injection Hl as <-. vm_compute in Hop. discriminate.
Qed.

Lemma config_ops_fluent_witness :
  resolve_jestFn no_jest = false
  ∧ (∀ op, exposes (createAutoMock no_jest UserService ∅).2 1%positive op)
  ∧ exposes (createPartialMock no_jest UserService ["find"] ∅).2 1%positive
      MockReturnValue.
Proof.
  split; [reflexivity|].
  destruct (config_ops_fluent echo no_jest UserService ["find"] ∅ eq_refl)
    as (Hauto & Hpartial & _).
  split.
  - apply (Hauto "find"). vm_compute; reflexivity.
  - apply (Hpartial "find"). vm_compute; reflexivity.
Defined.

(** Where the discovery fails: a method named [__proto__] is a callable
    member of the class, and the surrogate has no property of that name. *)
Lemma createAutoMock_members_counterexample :
  lookup_member (prototype_chain Proto) "__proto__"
  = Some (DataProperty (VFun 21))
  ∧ callable_or_accessor (DataProperty (VFun 21))
  ∧ (createAutoMock no_jest Proto ∅).1 !! "__proto__" = None
  ∧ map_to_list (createAutoMock no_jest Proto ∅).1 = [("run", VRef 2%positive)].
Proof.
  split; [reflexivity|]. split; [repeat constructor|].
  split; vm_compute; reflexivity.
Qed.

Lemma createAutoMock_members_witness :
  (∀ d, lookup_member (prototype_chain UserService) "__proto__" = Some d →
        ¬ callable_or_accessor d)
  ∧ "name" ∈ dom (createAutoMock no_jest UserService ∅).1
  ∧ ("count" ∉ dom (createAutoMock no_jest UserService ∅).1).
Proof.
  assert (∀ d, lookup_member (prototype_chain UserService) "__proto__" = Some d →
               ¬ callable_or_accessor d) as Hp
    by (intros d Hd; vm_compute in Hd; discriminate).
  split; [exact Hp|].
  destruct (createAutoMock_members no_jest UserService ∅ Hp)
    as (Hdom & _ & _ & _ & _ & _ & Hdata & _).
  split.
  - apply Hdom. split; [discriminate|].
    exists (AccessorProperty (Some 2) None). split; [reflexivity|constructor].
  - apply (Hdata "count" (VNumber 3)); [reflexivity|]. inversion 1.
Defined.


(** Where the requested names fail: asked for [__proto__], the builder
    returns a surrogate without a property of that name. *)
Lemma createPartialMock_names_counterexample :
  "__proto__" ∈ ["__proto__"; "find"]
  ∧ (createPartialMock no_jest Plain ["__proto__"; "find"] ∅).1 !! "__proto__"
    = None
  ∧ map_to_list (createPartialMock no_jest Plain ["__proto__"; "find"] ∅).1
    = [("find", VRef 2%positive)].
Proof.
  split; [apply elem_of_cons; by left|]. split; vm_compute; reflexivity.
Qed.

Lemma createPartialMock_names_witness :
  ("__proto__" ∉ ["find"; "ghost"])
  ∧ "ghost" ∈ ["find"; "ghost"]
  ∧ ∃ l, (createPartialMock no_jest Plain ["find"; "ghost"] ∅).1 !! "ghost"
         = Some (VRef l)
         ∧ (l ∉ dom (∅ : heap))
         ∧ (createPartialMock no_jest Plain ["find"; "ghost"] ∅).2 !! l
           = Some (partial_object no_jest l).
Proof.
  assert ("__proto__" ∉ ["find"; "ghost"]) as Hp.
  { intros Hin. apply elem_of_cons in Hin as [Hin|Hin]; [discriminate|].
    apply elem_of_cons in Hin as [Hin|Hin]; [discriminate|].
    by apply elem_of_nil in Hin. }
  assert ("ghost" ∈ ["find"; "ghost"]) as Hin
    by (apply elem_of_cons; right; apply elem_of_cons; by left).
  split; [exact Hp|]. split; [exact Hin|].
  destruct (createPartialMock_names no_jest Plain ["find"; "ghost"] ∅ Hp)
    as (_ & Hall & _).
  exact (Hall "ghost" Hin).
Defined.

(** The members found on the sample class: [find] once, the getter [name],
    the inherited [base]; neither the constructor nor the field [count]. *)
Example createAutoMock_UserService :
  map_to_list (createAutoMock no_jest UserService ∅).1
  = [("name", VRef 2%positive); ("find", VRef 1%positive);
     ("base", VRef 3%positive)].
Proof. vm_compute. reflexivity. Qed.

(** *** More on the builders *)


Lemma built_lookup h0 obj m h k l :
  built h0 obj m h → m !! k = Some (VRef l) → (l ∉ dom h0) ∧ l ∈ dom h.
Proof.
  intros (_ & Hobj & _) Hk. destruct (Hobj _ _ Hk) as (l' & [= <-] & Hl0 & Hl).
  split; [done|]. apply elem_of_dom. by eexists.
Qed.

Lemma createPartialMock_built e target names h :
  built h (partial_object e) (createPartialMock e target names h).1
                             (createPartialMock e target names h).2.
Proof. apply (foldl_install_built e h names (∅, h) (built_empty h _)). Qed.

(** X15. No two builder calls share a stub: a function object of the surrogate
    built first is in no surrogate built later, by either builder, and the
    later call leaves it as it was. *)
Theorem builders_share_nothing (e1 e2 : env) (T1 T2 : type)
    (mockMethods : list string) (h : heap) (k1 k2 : string) (l : loc) :
  (createAutoMock e1 T1 h).1 !! k1 = Some (VRef l) →
  let h1 := (createAutoMock e1 T1 h).2 in
  ((createAutoMock e2 T2 h1).1 !! k2 ≠ Some (VRef l))
  ∧ (createPartialMock e2 T2 mockMethods h1).1 !! k2 ≠ Some (VRef l)
  ∧ (createAutoMock e2 T2 h1).2 !! l = h1 !! l
  ∧ (createPartialMock e2 T2 mockMethods h1).2 !! l = h1 !! l.
Proof.
  intros Hk1 h1.
  destruct (built_lookup _ _ _ _ _ _ (createAutoMock_built e1 T1 h) Hk1)
    as [_ Hin]. fold h1 in Hin.
  apply elem_of_dom in Hin as [x Hx].
  split; [|split; [|split]].
  - intros Hk2.
    destruct (built_lookup _ _ _ _ _ _ (createAutoMock_built e2 T2 h1) Hk2)
      as [Hnot _]. apply Hnot, elem_of_dom. by eexists.
  - intros Hk2.
    destruct (built_lookup _ _ _ _ _ _
                (createPartialMock_built e2 T2 mockMethods h1) Hk2)
      as [Hnot _]. apply Hnot, elem_of_dom. by eexists.
  - destruct (createAutoMock_built e2 T2 h1) as (Hsub & _).
    rewrite Hx. by eapply lookup_weaken.
  - destruct (createPartialMock_built e2 T2 mockMethods h1) as (Hsub & _).
    rewrite Hx. by eapply lookup_weaken.
Qed.



(** X17. Inheritance, for classes none of whose prototypes has a property
    named [__proto__]: a member the most derived prototype does not define
    is stubbed exactly when it is stubbed for the parent class; a member it
    does define is decided by that definition alone, and is stubbed exactly
    when that definition is a method or has a getter.  So a method or getter
    of an ancestor redefined as a data field holding no function, or as an
    accessor with a setter only, gets no stub. *)
Theorem createAutoMock_inheritance (e e' : env) (id id' : nat) (p : proto)
    (chain : list proto) (h h' : heap) (k : string) :
  Forall (λ q, first_desc "__proto__" q = None) (p :: chain) →
  (first_desc k p = None →
   (k ∈ dom (createAutoMock e (Type_ id (p :: chain)) h).1
    ↔ k ∈ dom (createAutoMock e' (Type_ id' chain) h').1))
  ∧ (∀ d, first_desc k p = Some d →
       (k ∈ dom (createAutoMock e (Type_ id (p :: chain)) h).1
        ↔ k ≠ "constructor" ∧ callable_or_accessor d))
  ∧ (∀ v, first_desc k p = Some (DataProperty v) → ¬ function_value v →
       k ∉ dom (createAutoMock e (Type_ id (p :: chain)) h).1)
  ∧ (∀ s, first_desc k p = Some (AccessorProperty None s) →
       k ∉ dom (createAutoMock e (Type_ id (p :: chain)) h).1).
Proof.
  intros Hproto. apply Forall_cons in Hproto as [Hproto _].
  assert (∀ d, first_desc k p = Some d →
            (k ∈ dom (createAutoMock e (Type_ id (p :: chain)) h).1
             ↔ k ≠ "constructor" ∧ callable_or_accessor d)) as Hown.
  { intros d Hp. rewrite createAutoMock_dom. cbn [prototype_chain].
    rewrite lookup_member_cons, Hp. split.
    - intros (Hc & _ & d' & [= <-] & Hm). split; [done|]. by apply mockable_spec.
    - intros [Hc Hm]. split; [done|]. split; [intros ->; congruence|].
      exists d. split; [done|]. by apply mockable_spec. }
  split; [|split; [exact Hown|split]].
  - intros Hp. rewrite !createAutoMock_dom. cbn [prototype_chain].
    by rewrite lookup_member_cons, Hp.
  - intros v Hp Hv. rewrite (Hown _ Hp). intros [_ Hm]. inversion Hm. done.
  - intros s Hp. rewrite (Hown _ Hp). intros [_ Hm]. inversion Hm.
Qed.

Lemma size_list_to_set_le (l : list string) :
  (size (list_to_set l : gset string) ≤ length l)%nat.
Proof.
  induction l as [|k ks IH].
  - rewrite list_to_set_nil, size_empty. done.
  - rewrite list_to_set_cons, size_union_alt, size_singleton. cbn [length].
    assert (size ((list_to_set ks : gset string) ∖ {[k]})
            ≤ size (list_to_set ks : gset string))%nat
      by (apply subseteq_size; set_solver).
    lia.
Qed.

Lemma foldl_install_size e names acc :
  size (foldl (install_partial e) acc names).2 = size acc.2 + length names.
Proof.
  revert acc. induction names as [|k names IH]; intros acc; simpl; [lia|].
  rewrite IH, install_partial_unfold. cbn [snd]. rewrite alloc_size. lia.
Qed.

(** X18. For a list of names without [__proto__], [createPartialMock]
    creates one function object per element of the list, also for a name
    listed twice (the surrogate keeps one entry per distinct name); without
    repetitions the surrogate has as many entries as the list, and the empty
    list gives the empty surrogate and creates nothing. *)
Theorem createPartialMock_allocates (e : env) (target : type)
    (mockMethods : list string) (h : heap) :
  "__proto__" ∉ mockMethods →
  size (createPartialMock e target mockMethods h).2 = size h + length mockMethods
  ∧ (size (createPartialMock e target mockMethods h).1 ≤ length mockMethods)%nat
  ∧ (NoDup mockMethods →
     size (createPartialMock e target mockMethods h).1 = length mockMethods)
  ∧ createPartialMock e target [] h = (∅, h).
Proof.
  intros Hproto.
  assert (size (createPartialMock e target mockMethods h).1
          = size (list_to_set mockMethods : gset string)) as Hsz.
  { rewrite <- size_dom, createPartialMock_dom. f_equal.
    apply set_eq. intros k.
    rewrite elem_of_difference, elem_of_singleton, elem_of_list_to_set.
    split; [by intros [? _]|]. intros Hk. split; [done|]. by intros ->. }
  split; [apply (foldl_install_size e mockMethods (∅, h))|].
  split; [|split; [|done]].
  - rewrite Hsz. apply size_list_to_set_le.
  - intros Hnd. rewrite Hsz. by apply size_list_to_set.
Qed.

(** *** More on the self-built stub function *)

Lemma configure_all_frame H l cs : ∀ h,
  (∀ c, c ∈ cs → exposes h l c.1) →
  (∀ l', l' ≠ l → configure_all H l cs h !! l' = h !! l')
  ∧ (∀ k, (∀ op, k ≠ slot_name op) →
          get_prop (configure_all H l cs h) l k = get_prop h l k).
Proof.
  induction cs as [|c cs IH]; intros h Hex; [done|].
  unfold configure_all in *. simpl foldl.
  assert (exposes h l c.1) as Hc by (apply Hex, elem_of_cons; by left).
  rewrite configure_set_prop by done.
  destruct (IH (set_prop h l (slot_name c.1) c.2)) as [IH1 IH2].
  { intros c' Hc'. apply set_prop_exposes.
    - intros ?. apply slot_name_op_name.
    - apply Hex, elem_of_cons. by right. }
  split.
  - intros l' Hl'. rewrite IH1 by done. by apply set_prop_other.
  - intros k Hk. rewrite IH2 by done. apply get_set_prop_ne.
    intros Heq. by apply (Hk c.1).
Qed.

(** X19. Whatever is configured on one stub of a surrogate, in whatever order,
    the stub keeps its [_isMockFunction] mark and its four operations, and
    every other function object, the other stubs of the surrogate included,
    stays as it was. *)
Theorem configure_keeps_the_rest (H : host) (e : env) (target : type)
    (h0 : heap) (k : string) (l : loc) (cs : list (config_op * value)) :
  resolve_jestFn e = false →
  (createAutoMock e target h0).1 !! k = Some (VRef l) →
  let h := configure_all H l cs (createAutoMock e target h0).2 in
  get_prop h l "_isMockFunction" = VBool true
  ∧ (∀ op, exposes h l op)
  ∧ (∀ l', l' ≠ l → h !! l' = (createAutoMock e target h0).2 !! l')
  ∧ (∀ k' l', k' ≠ k → (createAutoMock e target h0).1 !! k' = Some (VRef l') →
       h !! l' = Some (OFunction (auto_fallback_props l'))).
Proof.
  intros He Hk h.
  pose proof (createAutoMock_fallback_stub e target h0 k l He Hk) as Hl.
  assert (∀ c, c ∈ cs → exposes (createAutoMock e target h0).2 l c.1) as Hex
    by (intros c _; by apply auto_fallback_exposes).
  destruct (configure_all_frame H l cs _ Hex) as [Hother Hprop].
  destruct (configure_all_slot H l cs _ MockReturnValue Hex) as (_ & Hkeep & _).
  split; [|split; [|split]].
  - subst h. rewrite Hprop by (by intros []).
    unfold get_prop. by rewrite Hl.
  - intros op. apply Hkeep. by apply auto_fallback_exposes.
  - done.
  - intros k' l' Hk' Hl'. subst h. rewrite Hother.
    + by apply (createAutoMock_fallback_stub e target h0 k').
    + intros ->. destruct (createAutoMock_built e target h0) as (_ & _ & Hinj).
      by apply Hk', (Hinj k' k l).
Qed.

(** X20. With no implementation in force and no return value stored, a stub
    given a resolved value other than [undefined] answers every call with
    [Promise.resolve] of that value and changes nothing, so the next call
    answers the same: for a value that is no object the answer is a promise
    fulfilled with it, and a promise given to [mockResolvedValue] is handed
    back as it is. *)
Theorem mockResolvedValue_promise (H : host) (e : env) (target : type)
    (h0 : heap) (k : string) (l : loc) (cs : list (config_op * value))
    (v : value) (args args' : list value) :
  resolve_jestFn e = false →
  (createAutoMock e target h0).1 !! k = Some (VRef l) →
  truthy (last_configured MockImplementation cs) = false →
  last_configured MockReturnValue cs = VUndefined →
  last_configured MockResolvedValue cs = v →
  is_defined v = true →
  let h := configure_all H l cs (createAutoMock e target h0).2 in
  call H (VRef l) args h = (Returned (promise_resolve v), h)
  ∧ call H (VRef l) args' (call H (VRef l) args h).2
    = (Returned (promise_resolve v), h)
  ∧ (primitive v →
     call H (VRef l) args h = (Returned (VPromise Fulfilled v), h))
  ∧ (∀ st x, v = VPromise st x → call H (VRef l) args h = (Returned v, h)).
Proof.
  intros He Hk Hi Hr Hp Hv h.
  pose proof (createAutoMock_fallback_stub e target h0 k l He Hk) as Hl.
  assert (∀ a, call H (VRef l) a h = (Returned (promise_resolve v), h)) as Hcall.
  { intros a. subst h. rewrite (stub_call_after_history H _ l _ cs a Hl).
    - by rewrite Hi, Hr, Hp, Hv.
    - intros op. apply auto_fallback_no_slot.
    - intros c _. by apply auto_fallback_exposes. }
  split; [apply Hcall|]. split; [rewrite Hcall; apply Hcall|]. split.
  - intros Hprim. rewrite Hcall. by destruct Hprim.
  - intros st x ->. apply Hcall.
Qed.

(** X21. With no implementation in force, a stub given a return value other than
    [undefined] returns it on every call, whatever the arguments and
    whatever resolved value was configured before or after; the call changes
    nothing, so the next call answers the same. *)
Theorem mockReturnValue_persists (H : host) (e : env) (target : type)
    (h0 : heap) (k : string) (l : loc) (cs : list (config_op * value))
    (v : value) (args args' : list value) :
  resolve_jestFn e = false →
  (createAutoMock e target h0).1 !! k = Some (VRef l) →
  truthy (last_configured MockImplementation cs) = false →
  last_configured MockReturnValue cs = v →
  is_defined v = true →
  let h := configure_all H l cs (createAutoMock e target h0).2 in
  call H (VRef l) args h = (Returned v, h)
  ∧ call H (VRef l) args' (call H (VRef l) args h).2 = (Returned v, h).
Proof.
  intros He Hk Hi Hr Hv h.
  pose proof (createAutoMock_fallback_stub e target h0 k l He Hk) as Hl.
  assert (∀ a, call H (VRef l) a h = (Returned v, h)) as Hcall.
  { intros a. subst h. rewrite (stub_call_after_history H _ l _ cs a Hl).
    + by rewrite Hi, Hr, Hv.
    + intros op. apply auto_fallback_no_slot.
    + intros c _. by apply auto_fallback_exposes. }
  split; [apply Hcall|]. rewrite Hcall. apply Hcall.
Qed.

(** *** These properties at sample inputs *)


Lemma builders_share_nothing_witness :
  (createAutoMock no_jest UserService ∅).1 !! "find" = Some (VRef 1%positive)
  ∧ (createAutoMock no_jest UserService
       (createAutoMock no_jest UserService ∅).2).1 !! "find"
    ≠ Some (VRef 1%positive).
Proof.
  assert ((createAutoMock no_jest UserService ∅).1 !! "find"
          = Some (VRef 1%positive)) as Hk by (vm_compute; reflexivity).
  refine (conj Hk _).
  destruct (builders_share_nothing no_jest no_jest UserService UserService []
              ∅ "find" "find" 1%positive Hk) as (Hne & _).
  exact Hne.
Defined.

Lemma createAutoMock_inheritance_witness :
  Forall (λ q, first_desc "__proto__" q = None) (prototype_chain Shadowing)
  ∧ ("find" ∉ dom (createAutoMock no_jest Shadowing ∅).1)
  ∧ ("title" ∉ dom (createAutoMock no_jest Shadowing ∅).1)
  ∧ "save" ∈ dom (createAutoMock no_jest Shadowing ∅).1.
Proof.
  assert (Forall (λ q, first_desc "__proto__" q = None)
            (prototype_chain Shadowing)) as Hp by (repeat constructor).
  split; [exact Hp|].
  split; [|split].
  - destruct (createAutoMock_inheritance no_jest no_jest 2 2 _ _ ∅ ∅ "find" Hp)
      as (_ & _ & Hdata & _).
    apply (Hdata (VNumber 0)); [reflexivity|]. inversion 1.
  - destruct (createAutoMock_inheritance no_jest no_jest 2 2 _ _ ∅ ∅ "title" Hp)
      as (_ & _ & _ & Hset).
    apply (Hset (Some 11)). reflexivity.
  - destruct (createAutoMock_inheritance no_jest no_jest 2 2 _ _ ∅ ∅ "save" Hp)
      as (Hup & _).
    apply (Hup eq_refl).
    assert (Forall (λ q, first_desc "__proto__" q = None)
              [[("constructor", DataProperty (VFun 12));
                ("find", DataProperty (VFun 13));
                ("title", AccessorProperty (Some 14) None);
                ("save", DataProperty (VFun 15))]]) as Hp' by (repeat constructor).
    destruct (createAutoMock_inheritance no_jest no_jest 2 2 _ _ ∅ ∅ "save" Hp')
      as (_ & Hown & _).
    apply (Hown (DataProperty (VFun 15)) eq_refl).
    split; [discriminate|repeat constructor].
Defined.

Lemma createPartialMock_allocates_witness :
  ("__proto__" ∉ ["findOne"; "create"])
  ∧ NoDup ["findOne"; "create"]
  ∧ size (createPartialMock no_jest UserService ["findOne"; "create"] ∅).1 = 2.
Proof.
  assert ("__proto__" ∉ ["findOne"; "create"]) as Hp.
  { intros Hin. apply elem_of_cons in Hin as [Hin|Hin]; [discriminate|].
    apply elem_of_cons in Hin as [Hin|Hin]; [discriminate|].
    by apply elem_of_nil in Hin. }
  assert (NoDup ["findOne"; "create"]) as Hnd.
  { apply NoDup_cons. split.
    - intros Hin%list_elem_of_singleton. discriminate.
    - apply NoDup_singleton. }
  refine (conj Hp (conj Hnd _)).
  destruct (createPartialMock_allocates no_jest UserService
              ["findOne"; "create"] ∅ Hp) as (_ & _ & Hsz & _).
  exact (Hsz Hnd).
Defined.

Lemma configure_keeps_the_rest_witness :
  resolve_jestFn no_jest = false
  ∧ (createAutoMock no_jest UserService ∅).1 !! "find" = Some (VRef 1%positive)
  ∧ get_prop
      (configure_all echo 1%positive
         [(MockImplementation, VFun 7); (MockReturnValue, VString "late")]
         (createAutoMock no_jest UserService ∅).2)
      1%positive "_isMockFunction" = VBool true.
Proof.
  split; [reflexivity|].
  assert ((createAutoMock no_jest UserService ∅).1 !! "find"
          = Some (VRef 1%positive)) as Hk by (vm_compute; reflexivity).
  refine (conj Hk _).
  destruct (configure_keeps_the_rest echo no_jest UserService ∅ "find"
              1%positive
              [(MockImplementation, VFun 7); (MockReturnValue, VString "late")]
              eq_refl Hk) as (Hmark & _).
  exact Hmark.
Defined.

Lemma mockResolvedValue_promise_witness :
  let cs := [(MockResolvedValue, VNumber 5)] in
  resolve_jestFn no_jest = false
  ∧ (createAutoMock no_jest UserService ∅).1 !! "find" = Some (VRef 1%positive)
  ∧ truthy (last_configured MockImplementation cs) = false
  ∧ last_configured MockReturnValue cs = VUndefined
  ∧ last_configured MockResolvedValue cs = VNumber 5
  ∧ is_defined (VNumber 5) = true
  ∧ primitive (VNumber 5)
  ∧ call echo (VRef 1%positive) []
      (configure_all echo 1%positive cs (createAutoMock no_jest UserService ∅).2)
    = (Returned (VPromise Fulfilled (VNumber 5)),
       configure_all echo 1%positive cs (createAutoMock no_jest UserService ∅).2).
Proof.
  intros cs.
  assert ((createAutoMock no_jest UserService ∅).1 !! "find"
          = Some (VRef 1%positive)) as Hk by (vm_compute; reflexivity).
  refine (conj eq_refl (conj Hk (conj eq_refl (conj eq_refl
            (conj eq_refl (conj eq_refl (conj (primitive_number 5) _))))))).
  destruct (mockResolvedValue_promise echo no_jest UserService ∅ "find"
              1%positive cs (VNumber 5) [] []
              eq_refl Hk eq_refl eq_refl eq_refl eq_refl) as (_ & _ & Hprim & _).
  exact (Hprim (primitive_number 5)).
Defined.

Lemma mockReturnValue_persists_witness :
  let cs := [(MockReturnValue, VNumber 42); (MockResolvedValue, VNumber 1)] in
  resolve_jestFn no_jest = false
  ∧ (createAutoMock no_jest UserService ∅).1 !! "find" = Some (VRef 1%positive)
  ∧ truthy (last_configured MockImplementation cs) = false
  ∧ last_configured MockReturnValue cs = VNumber 42
  ∧ is_defined (VNumber 42) = true
  ∧ call echo (VRef 1%positive) [VString "a"]
      (configure_all echo 1%positive cs (createAutoMock no_jest UserService ∅).2)
    = (Returned (VNumber 42),
       configure_all echo 1%positive cs (createAutoMock no_jest UserService ∅).2).
Proof.
  intros cs.
  assert ((createAutoMock no_jest UserService ∅).1 !! "find"
          = Some (VRef 1%positive)) as Hk by (vm_compute; reflexivity).
  refine (conj eq_refl (conj Hk (conj eq_refl (conj eq_refl (conj eq_refl _))))).
  destruct (mockReturnValue_persists echo no_jest UserService ∅ "find"
              1%positive cs (VNumber 42) [VString "a"] []
              eq_refl Hk eq_refl eq_refl eq_refl) as (Hcall & _).
  exact Hcall.
Defined.

End AutoMockSpec.

(** ** createTestModule *)

Module ModuleHelperSpec.
Import ModuleHelper.

Lemma omap_apply_override_sublist (ovs : list ModuleOverride) :
  (omap apply_override ovs).*1 `sublist_of` (provide <$> ovs)
  ∧ (length (omap apply_override ovs) ≤ length ovs)%nat.
Proof.
  induction ovs as [|ov ovs [IH1 IH2]]; [by split|].
  cbn [omap list_omap fmap list_fmap length].
  destruct (apply_override ov) as [[t a]|] eqn:Ha.
  - assert (t = provide ov) as ->.
    { unfold apply_override in Ha.
      destruct (payload_defined _), (useClass ov), (useFactory ov);
        by simplify_eq. }
    split; [by apply sublist_skip|]. cbn [length]. lia.
  - split; [by apply sublist_cons|lia].
Qed.

(** X12. Of the overrides given to [createTestModule], each is registered at most
    once and in the order given, under its own token.  One with a
    [useValue] other than [undefined] ([null] included) is registered as a
    value even if it also names a class or a factory; the ones dropped,
    without an error, are exactly those that name nothing. *)
Theorem createTestModule_overrides (o : CreateTestModuleOptions) :
  let ovs := default [] (overrides o) in
  let reg := b_overrides (createTestModule o) in
  reg.*1 `sublist_of` (provide <$> ovs)
  ∧ (length reg ≤ length ovs)%nat
  ∧ (∀ t a, (t, a) ∈ reg →
       ∃ ov, ov ∈ ovs ∧ provide ov = t ∧ apply_override ov = Some (t, a))
  ∧ (∀ ov, ov ∈ ovs → payload_defined (useValue ov) = true →
       (provide ov, UseValue (useValue ov)) ∈ reg)
  ∧ length reg
    = length (filter (λ ov, payload_defined (useValue ov) = true
                            ∨ is_Some (useClass ov) ∨ is_Some (useFactory ov))
                     ovs).
Proof.
  intros ovs reg. subst reg. unfold createTestModule. cbn [b_overrides].
  fold ovs. destruct (omap_apply_override_sublist ovs) as [Hsub Hlen].
  split; [done|]. split; [done|]. split; [|split].
  - intros t a Hin. apply list_elem_of_omap in Hin as (ov & Hov & Ha).
    exists ov. split; [done|]. split; [|done].
    unfold apply_override in Ha.
    destruct (payload_defined _), (useClass ov), (useFactory ov);
      by simplify_eq.
  - intros ov Hov Hdef. apply list_elem_of_omap. exists ov. split; [done|].
    unfold apply_override. by rewrite Hdef.
  - clear. induction ovs as [|ov ovs IH]; [done|].
    cbn [omap list_omap]. rewrite filter_cons. unfold apply_override at 1.
    destruct (payload_defined (useValue ov)) eqn:Hd.
    { rewrite decide_True by (by left). cbn [length]. by rewrite IH. }
    destruct (useClass ov) as [c|] eqn:Hc.
    { rewrite decide_True by (right; left; by eexists). cbn [length]. by rewrite IH. }
    destruct (useFactory ov) as [f|] eqn:Hf.
    { rewrite decide_True by (right; right; by eexists). cbn [length]. by rewrite IH. }
    rewrite decide_False; [done|].
    intros [?|[[? ?]|[? ?]]]; done.
Qed.

Lemma omap_provider_override (ps : list AutoMock.provider) :
  omap apply_override (provider_override <$> ps)
  = (λ p, (TClass (AutoMock.provide p),
           UseValue (Surrogate (AutoMock.useValue p)))) <$> ps.
Proof.
  induction ps as [|p ps IH]; [done|].
  change (omap apply_override (provider_override <$> p :: ps))
    with ((TClass (AutoMock.provide p),
           UseValue (Surrogate (AutoMock.useValue p)))
          :: omap apply_override (provider_override <$> ps)).
  by rewrite IH.
Qed.

(** X13. The providers [createMockProvider] returns, given as overrides, are all
    registered, each as a value under its class with its surrogate, in the
    order given; none is dropped, not even one whose surrogate is empty. *)
Theorem createTestModule_mock_providers (o : CreateTestModuleOptions)
    (ps : list AutoMock.provider) :
  overrides o = Some (provider_override <$> ps) →
  b_overrides (createTestModule o)
  = (λ p, (TClass (AutoMock.provide p),
           UseValue (Surrogate (AutoMock.useValue p)))) <$> ps
  ∧ (∀ e target customMocks h,
       (AutoMock.createMockProvider e target customMocks h).1 ∈ ps →
       (TClass target,
        UseValue (Surrogate (spread (AutoMock.createAutoMock e target h).1
                                    (default ∅ customMocks))))
       ∈ b_overrides (createTestModule o)).
Proof.
  intros Ho.
  assert (b_overrides (createTestModule o)
          = (λ p, (TClass (AutoMock.provide p),
                   UseValue (Surrogate (AutoMock.useValue p)))) <$> ps) as Hreg.
  { unfold createTestModule. cbn [b_overrides]. rewrite Ho.
    exact (omap_provider_override ps). }
  split; [done|].
  intros e target customMocks h Hin. rewrite Hreg.
  apply list_elem_of_fmap.
  exists (AutoMock.createMockProvider e target customMocks h).1.
  split; [|done]. unfold AutoMock.createMockProvider.
  by destruct (AutoMock.createAutoMock e target h).
Qed.

Import Samples.

Lemma createTestModule_overrides_witness :
  let o := TestModuleOptions 0 None None None
             (Some [empty_override; crowded_override]) in
  crowded_override ∈ [empty_override; crowded_override]
  ∧ payload_defined (useValue crowded_override) = true
  ∧ (TName "CONFIG", UseValue (PlainValue VNull)) ∈ b_overrides (createTestModule o).
Proof.
  intros o.
  assert (crowded_override ∈ [empty_override; crowded_override]) as Hin
    by (apply elem_of_cons; right; apply elem_of_cons; by left).
  refine (conj Hin (conj eq_refl _)).
  destruct (createTestModule_overrides o) as (_ & _ & _ & Hval & _).
  exact (Hval crowded_override Hin eq_refl).
Defined.

Lemma createTestModule_mock_providers_witness :
  let p := (AutoMock.createMockProvider no_jest Plain None ∅).1 in
  let o := TestModuleOptions 0 None None None (Some (provider_override <$> [p])) in
  overrides o = Some (provider_override <$> [p])
  ∧ b_overrides (createTestModule o)
    = [(TClass (AutoMock.provide p), UseValue (Surrogate (AutoMock.useValue p)))].
Proof.
  intros p o. split; [reflexivity|].
  destruct (createTestModule_mock_providers o [p] eq_refl) as [Hreg _].
  exact Hreg.
Defined.

End ModuleHelperSpec.

